(** * Chatterbox: the browser client (Frontend/app.js) and the room relay

    A shallow embedding of the chat client's JavaScript: its five global
    variables, the part of the page it reads and writes, the WebSocket
    objects it creates and the timers it arms, driven by the events a
    browser delivers (user input, socket events, timer expiry).  Handlers
    are written in a state-and-exception monad, one definition per source
    function, under the source's names.

    The relay server (backend/main.py) is not part of the sources at hand;
    the last module models its registry and broadcaster from the
    specification. *)

From Stdlib Require Import ZArith NArith List Ascii String Bool Lia DecimalString.
From Stdlib Require Import DecimalNat DecimalFacts.
From stdpp Require Import base tactics option list gmap.

Open Scope Z_scope.
Open Scope nat_scope.
Open Scope list_scope.

(** ** JavaScript strings

    A JavaScript string is a sequence of UTF-16 code units; [length],
    [trim], [charAt] and the regular expressions used here (none carries
    the [u] flag) all work on code units. *)

Module JS.

Abbreviation jsstring := (list N).

(** An ASCII literal of the source, as code units. *)
Definition lit (s : string) : jsstring :=
  map N_of_ascii (list_ascii_of_string s).

(** WhiteSpace and LineTerminator of ECMAScript: what [trim] strips and
    what the class [\s] matches. *)
Definition isWhiteSpace (c : N) : bool :=
  ((9 <=? c) && (c <=? 13))%N          (* TAB LF VT FF CR *)
  || (c =? 32)%N                        (* SPACE *)
  || (c =? 160)%N                       (* NO-BREAK SPACE *)
  || (c =? 5760)%N                      (* U+1680 *)
  || ((8192 <=? c) && (c <=? 8202))%N  (* U+2000 .. U+200A *)
  || (c =? 8232)%N || (c =? 8233)%N    (* U+2028 U+2029 *)
  || (c =? 8239)%N                      (* U+202F *)
  || (c =? 8287)%N                      (* U+205F *)
  || (c =? 12288)%N                     (* U+3000 *)
  || (c =? 65279)%N.                    (* U+FEFF *)

Fixpoint trimStart (s : jsstring) : jsstring :=
  match s with
  | c :: s' => if isWhiteSpace c then trimStart s' else s
  | [] => []
  end.

Definition trimEnd (s : jsstring) : jsstring := rev (trimStart (rev s)).

(** [String.prototype.trim] *)
Definition trim (s : jsstring) : jsstring := trimEnd (trimStart s).

(** Truthiness of a string: the empty string is the only falsy one. *)
Definition truthy (s : jsstring) : bool :=
  match s with [] => false | _ => true end.

(** [s.charAt(0)]: the first code unit as a string, or the empty string. *)
Definition charAt0 (s : jsstring) : jsstring := take 1 s.

(** [String(n)] for an integer: decimal digits, a minus sign before a
    negative number. *)
Definition String_of_nat (n : nat) : jsstring :=
  lit (NilZero.string_of_uint (Nat.to_uint n)).

Definition String_of_Z (z : Z) : jsstring :=
  if (z <? 0)%Z then lit "-" ++ String_of_nat (Z.to_nat (- z))
  else String_of_nat (Z.to_nat z).

(** [s.padStart(targetLength, padString)] *)
Definition padStart (target : nat) (pad : jsstring) (s : jsstring) : jsstring :=
  if (target <=? length s) || negb (truthy pad) then s
  else
    let fillLen := target - length s in
    take fillLen (concat (replicate fillLen pad)) ++ s.

(** The character classes of [/[^a-zA-Z0-9_\s]/]. *)
Definition isAlnum (c : N) : bool :=
  ((97 <=? c) && (c <=? 122))%N        (* a-z *)
  || ((65 <=? c) && (c <=? 90))%N      (* A-Z *)
  || ((48 <=? c) && (c <=? 57))%N.     (* 0-9 *)

Definition isUnderscore (c : N) : bool := (c =? 95)%N.

(** [s.replace(/\s{2,}/g, ' ')]: every maximal run of two or more
    white-space code units becomes one SPACE; a single one stays as it is.
    [run] holds the white-space code units of the run being read. *)
Definition flushRun (run : jsstring) : jsstring :=
  match run with
  | [] => []
  | [c] => [c]
  | _ :: _ :: _ => [32%N]
  end.

Fixpoint collapseFrom (run : jsstring) (s : jsstring) : jsstring :=
  match s with
  | [] => flushRun run
  | c :: s' =>
      if isWhiteSpace c then collapseFrom (run ++ [c]) s'
      else flushRun run ++ c :: collapseFrom [] s'
  end.

Definition collapseSpaces (s : jsstring) : jsstring := collapseFrom [] s.

(** [s.replace(/[^a-zA-Z0-9_\s]/g, '')]: every code unit outside the
    class is deleted. *)
Definition usernameChar (c : N) : bool :=
  isAlnum c || isUnderscore c || isWhiteSpace c.

Definition stripDisallowed (s : jsstring) : jsstring :=
  List.filter usernameChar s.

(** *** Date

    [new Date()] together with the environment's offset from UTC at that
    instant; [getHours] and [getMinutes] are ECMAScript's HourFromTime and
    MinFromTime of the local time value. *)
Record Date := { timeValue : Z; localTZA : Z }.

Definition msPerMinute : Z := 60000.
Definition msPerHour : Z := 3600000.

Definition getHours (d : Date) : Z :=
  (((timeValue d + localTZA d) / msPerHour) mod 24)%Z.

Definition getMinutes (d : Date) : Z :=
  (((timeValue d + localTZA d) / msPerMinute) mod 60)%Z.

End JS.

Import JS.

(** [getCurrentTime] (app.js 429-434); [now] is the value of [new Date()]. *)
Definition getCurrentTime (now : Date) : jsstring :=
  let hours := padStart 2 (lit "0") (String_of_Z (getHours now)) in
  let minutes := padStart 2 (lit "0") (String_of_Z (getMinutes now)) in
  hours ++ lit ":" ++ minutes.

(** ** The page and the client's state *)

(** A WebSocket object: its [readyState] and, for observation, the frames
    it has transmitted, oldest first.  A frame is the object handed to
    [JSON.stringify]: its fields in the order of the object literal, every
    value a string. *)
Inductive ReadyState := CONNECTING | OPEN | CLOSING | CLOSED.

Abbreviation Envelope := (list (string * jsstring)).

Record WebSocket := { readyState : ReadyState; sent : list Envelope }.

(** The four callbacks the client hands to [setTimeout]. *)
Inductive Callback :=
| ResetBorder    (* handleJoin: usernameInput.style.borderColor = '' *)
| HideStatus     (* socket.onopen: hide the connection status *)
| Reconnect      (* socket.onclose: reconnect if the chat view is shown *)
| StopTyping.    (* handleTyping: end of the idle window *)

Record Timer := { due : N; callback : Callback; pending : bool }.

(** What [addChatMessage] and [addSystemMessage] append to the list. *)
Inductive MessageNode :=
| ChatMessage (className avatar username time bubble : jsstring)
| SystemMessage (content : jsstring).

(** The login view: the elements of it the script reads or writes. *)
Record LoginScreen := {
  login_hidden : bool;  (* loginScreen.classList contains 'hidden' *)
  usernameInput_value : jsstring;
  usernameInput_borderColor : jsstring;  (* usernameInput.style.borderColor *)
  roomSelect_value : jsstring
}.
(** The chat view. *)
Record ChatScreen := {
  chat_hidden : bool;  (* chatScreen.classList contains 'hidden' *)
  currentRoomEl_text : jsstring;  (* currentRoomEl.textContent *)
  onlineCount_text : jsstring;  (* onlineCount.textContent *)
  messagesList : list MessageNode;  (* the children of messagesList *)
  messageInput_value : jsstring;
  sendBtn_disabled : bool;
  typingIndicator_hidden : bool;
  typingText_text : jsstring;  (* typingText.textContent *)
  roomModal_hidden : bool
}.
(** The connection status banner. *)
Record ConnectionStatus := {
  status_hidden : bool;  (* connectionStatus.classList contains 'hidden' *)
  statusText_text : jsstring;  (* statusText.textContent *)
  spinner_display : jsstring  (* spinner.style.display *)
}.
(** The script's five [let] variables (app.js 9-13), the page, the
    WebSocket objects and the timers. *)
Record State := {
  socket : option nat;  (* let socket: null, or a reference into [sockets] *)
  currentUsername : jsstring;
  currentRoom : jsstring;
  isTyping : bool;
  typingTimeout : option nat;  (* null, or a timer handle *)
  loginScreen : LoginScreen;
  chatScreen : ChatScreen;
  connectionStatus : ConnectionStatus;
  sockets : list WebSocket;  (* every WebSocket object created so far *)
  timers : list Timer;  (* every timer armed so far; its handle is its position *)
  clock : N  (* milliseconds since the page was loaded *)
}.
(** Functional record update, one setter per field. *)
Definition set_login_hidden (v : bool) (l : LoginScreen) : LoginScreen :=
  {| login_hidden := v; usernameInput_value := usernameInput_value l;
     usernameInput_borderColor := usernameInput_borderColor l;
     roomSelect_value := roomSelect_value l |}.

Definition set_usernameInput_value (v : jsstring) (l : LoginScreen) : LoginScreen :=
  {| login_hidden := login_hidden l; usernameInput_value := v;
     usernameInput_borderColor := usernameInput_borderColor l;
     roomSelect_value := roomSelect_value l |}.

Definition set_usernameInput_borderColor (v : jsstring) (l : LoginScreen) : LoginScreen :=
  {| login_hidden := login_hidden l;
     usernameInput_value := usernameInput_value l;
     usernameInput_borderColor := v; roomSelect_value := roomSelect_value l |}.

Definition set_roomSelect_value (v : jsstring) (l : LoginScreen) : LoginScreen :=
  {| login_hidden := login_hidden l;
     usernameInput_value := usernameInput_value l;
     usernameInput_borderColor := usernameInput_borderColor l;
     roomSelect_value := v |}.

Definition set_chat_hidden (v : bool) (c : ChatScreen) : ChatScreen :=
  {| chat_hidden := v; currentRoomEl_text := currentRoomEl_text c;
     onlineCount_text := onlineCount_text c; messagesList := messagesList c;
     messageInput_value := messageInput_value c;
     sendBtn_disabled := sendBtn_disabled c;
     typingIndicator_hidden := typingIndicator_hidden c;
     typingText_text := typingText_text c;
     roomModal_hidden := roomModal_hidden c |}.

Definition set_currentRoomEl_text (v : jsstring) (c : ChatScreen) : ChatScreen :=
  {| chat_hidden := chat_hidden c; currentRoomEl_text := v;
     onlineCount_text := onlineCount_text c; messagesList := messagesList c;
     messageInput_value := messageInput_value c;
     sendBtn_disabled := sendBtn_disabled c;
     typingIndicator_hidden := typingIndicator_hidden c;
     typingText_text := typingText_text c;
     roomModal_hidden := roomModal_hidden c |}.

Definition set_onlineCount_text (v : jsstring) (c : ChatScreen) : ChatScreen :=
  {| chat_hidden := chat_hidden c;
     currentRoomEl_text := currentRoomEl_text c; onlineCount_text := v;
     messagesList := messagesList c;
     messageInput_value := messageInput_value c;
     sendBtn_disabled := sendBtn_disabled c;
     typingIndicator_hidden := typingIndicator_hidden c;
     typingText_text := typingText_text c;
     roomModal_hidden := roomModal_hidden c |}.

Definition set_messagesList (v : list MessageNode) (c : ChatScreen) : ChatScreen :=
  {| chat_hidden := chat_hidden c;
     currentRoomEl_text := currentRoomEl_text c;
     onlineCount_text := onlineCount_text c; messagesList := v;
     messageInput_value := messageInput_value c;
     sendBtn_disabled := sendBtn_disabled c;
     typingIndicator_hidden := typingIndicator_hidden c;
     typingText_text := typingText_text c;
     roomModal_hidden := roomModal_hidden c |}.

Definition set_messageInput_value (v : jsstring) (c : ChatScreen) : ChatScreen :=
  {| chat_hidden := chat_hidden c;
     currentRoomEl_text := currentRoomEl_text c;
     onlineCount_text := onlineCount_text c; messagesList := messagesList c;
     messageInput_value := v; sendBtn_disabled := sendBtn_disabled c;
     typingIndicator_hidden := typingIndicator_hidden c;
     typingText_text := typingText_text c;
     roomModal_hidden := roomModal_hidden c |}.

Definition set_sendBtn_disabled (v : bool) (c : ChatScreen) : ChatScreen :=
  {| chat_hidden := chat_hidden c;
     currentRoomEl_text := currentRoomEl_text c;
     onlineCount_text := onlineCount_text c; messagesList := messagesList c;
     messageInput_value := messageInput_value c; sendBtn_disabled := v;
     typingIndicator_hidden := typingIndicator_hidden c;
     typingText_text := typingText_text c;
     roomModal_hidden := roomModal_hidden c |}.

Definition set_typingIndicator_hidden (v : bool) (c : ChatScreen) : ChatScreen :=
  {| chat_hidden := chat_hidden c;
     currentRoomEl_text := currentRoomEl_text c;
     onlineCount_text := onlineCount_text c; messagesList := messagesList c;
     messageInput_value := messageInput_value c;
     sendBtn_disabled := sendBtn_disabled c; typingIndicator_hidden := v;
     typingText_text := typingText_text c;
     roomModal_hidden := roomModal_hidden c |}.

Definition set_typingText_text (v : jsstring) (c : ChatScreen) : ChatScreen :=
  {| chat_hidden := chat_hidden c;
     currentRoomEl_text := currentRoomEl_text c;
     onlineCount_text := onlineCount_text c; messagesList := messagesList c;
     messageInput_value := messageInput_value c;
     sendBtn_disabled := sendBtn_disabled c;
     typingIndicator_hidden := typingIndicator_hidden c;
     typingText_text := v; roomModal_hidden := roomModal_hidden c |}.

Definition set_roomModal_hidden (v : bool) (c : ChatScreen) : ChatScreen :=
  {| chat_hidden := chat_hidden c;
     currentRoomEl_text := currentRoomEl_text c;
     onlineCount_text := onlineCount_text c; messagesList := messagesList c;
     messageInput_value := messageInput_value c;
     sendBtn_disabled := sendBtn_disabled c;
     typingIndicator_hidden := typingIndicator_hidden c;
     typingText_text := typingText_text c; roomModal_hidden := v |}.

Definition set_status_hidden (v : bool) (b : ConnectionStatus) : ConnectionStatus :=
  {| status_hidden := v; statusText_text := statusText_text b;
     spinner_display := spinner_display b |}.

Definition set_statusText_text (v : jsstring) (b : ConnectionStatus) : ConnectionStatus :=
  {| status_hidden := status_hidden b; statusText_text := v;
     spinner_display := spinner_display b |}.

Definition set_spinner_display (v : jsstring) (b : ConnectionStatus) : ConnectionStatus :=
  {| status_hidden := status_hidden b; statusText_text := statusText_text b;
     spinner_display := v |}.

Definition set_socket (v : option nat) (st : State) : State :=
  {| socket := v; currentUsername := currentUsername st;
     currentRoom := currentRoom st; isTyping := isTyping st;
     typingTimeout := typingTimeout st; loginScreen := loginScreen st;
     chatScreen := chatScreen st; connectionStatus := connectionStatus st;
     sockets := sockets st; timers := timers st; clock := clock st |}.

Definition set_currentUsername (v : jsstring) (st : State) : State :=
  {| socket := socket st; currentUsername := v;
     currentRoom := currentRoom st; isTyping := isTyping st;
     typingTimeout := typingTimeout st; loginScreen := loginScreen st;
     chatScreen := chatScreen st; connectionStatus := connectionStatus st;
     sockets := sockets st; timers := timers st; clock := clock st |}.

Definition set_currentRoom (v : jsstring) (st : State) : State :=
  {| socket := socket st; currentUsername := currentUsername st;
     currentRoom := v; isTyping := isTyping st;
     typingTimeout := typingTimeout st; loginScreen := loginScreen st;
     chatScreen := chatScreen st; connectionStatus := connectionStatus st;
     sockets := sockets st; timers := timers st; clock := clock st |}.

Definition set_isTyping (v : bool) (st : State) : State :=
  {| socket := socket st; currentUsername := currentUsername st;
     currentRoom := currentRoom st; isTyping := v;
     typingTimeout := typingTimeout st; loginScreen := loginScreen st;
     chatScreen := chatScreen st; connectionStatus := connectionStatus st;
     sockets := sockets st; timers := timers st; clock := clock st |}.

Definition set_typingTimeout (v : option nat) (st : State) : State :=
  {| socket := socket st; currentUsername := currentUsername st;
     currentRoom := currentRoom st; isTyping := isTyping st;
     typingTimeout := v; loginScreen := loginScreen st;
     chatScreen := chatScreen st; connectionStatus := connectionStatus st;
     sockets := sockets st; timers := timers st; clock := clock st |}.

Definition set_loginScreen (v : LoginScreen) (st : State) : State :=
  {| socket := socket st; currentUsername := currentUsername st;
     currentRoom := currentRoom st; isTyping := isTyping st;
     typingTimeout := typingTimeout st; loginScreen := v;
     chatScreen := chatScreen st; connectionStatus := connectionStatus st;
     sockets := sockets st; timers := timers st; clock := clock st |}.

Definition set_chatScreen (v : ChatScreen) (st : State) : State :=
  {| socket := socket st; currentUsername := currentUsername st;
     currentRoom := currentRoom st; isTyping := isTyping st;
     typingTimeout := typingTimeout st; loginScreen := loginScreen st;
     chatScreen := v; connectionStatus := connectionStatus st;
     sockets := sockets st; timers := timers st; clock := clock st |}.

Definition set_connectionStatus (v : ConnectionStatus) (st : State) : State :=
  {| socket := socket st; currentUsername := currentUsername st;
     currentRoom := currentRoom st; isTyping := isTyping st;
     typingTimeout := typingTimeout st; loginScreen := loginScreen st;
     chatScreen := chatScreen st; connectionStatus := v;
     sockets := sockets st; timers := timers st; clock := clock st |}.

Definition set_sockets (v : list WebSocket) (st : State) : State :=
  {| socket := socket st; currentUsername := currentUsername st;
     currentRoom := currentRoom st; isTyping := isTyping st;
     typingTimeout := typingTimeout st; loginScreen := loginScreen st;
     chatScreen := chatScreen st; connectionStatus := connectionStatus st;
     sockets := v; timers := timers st; clock := clock st |}.

Definition set_timers (v : list Timer) (st : State) : State :=
  {| socket := socket st; currentUsername := currentUsername st;
     currentRoom := currentRoom st; isTyping := isTyping st;
     typingTimeout := typingTimeout st; loginScreen := loginScreen st;
     chatScreen := chatScreen st; connectionStatus := connectionStatus st;
     sockets := sockets st; timers := v; clock := clock st |}.

Definition set_clock (v : N) (st : State) : State :=
  {| socket := socket st; currentUsername := currentUsername st;
     currentRoom := currentRoom st; isTyping := isTyping st;
     typingTimeout := typingTimeout st; loginScreen := loginScreen st;
     chatScreen := chatScreen st; connectionStatus := connectionStatus st;
     sockets := sockets st; timers := timers st; clock := v |}.

(** ** Handlers as state transformers that may throw

    A JavaScript handler runs to completion on the state; an uncaught
    exception ends it where it is raised and keeps the assignments made so
    far. *)

Inductive Completion (A : Type) :=
| Normal (a : A)
| Throw.
Arguments Normal {A} a.
Arguments Throw {A}.

Definition M (A : Type) : Type := State -> Completion A * State.

#[global] Instance M_ret : MRet M := fun A a st => (Normal a, st).

#[global] Instance M_bind : MBind M := fun A B f m st =>
  match m st with
  | (Normal a, st') => f a st'
  | (Throw, st') => (Throw, st')
  end.

Definition get {A} (f : State -> A) : M A := fun st => (Normal (f st), st).
Definition modify (f : State -> State) : M unit := fun st => (Normal tt, f st).
Definition throw {A} : M A := fun st => (Throw, st).

(** The state a handler leaves behind, however it completes. *)
Definition exec {A} (m : M A) (st : State) : State := snd (m st).

Definition on_login (f : LoginScreen -> LoginScreen) : M unit :=
  modify (fun st => set_loginScreen (f (loginScreen st)) st).
Definition on_chat (f : ChatScreen -> ChatScreen) : M unit :=
  modify (fun st => set_chatScreen (f (chatScreen st)) st).
Definition on_status (f : ConnectionStatus -> ConnectionStatus) : M unit :=
  modify (fun st => set_connectionStatus (f (connectionStatus st)) st).

(** *** The WebSocket and timer interfaces of the browser *)

(** [new WebSocket(url)]: a fresh object, CONNECTING, nothing sent. *)
Definition new_WebSocket : M nat := fun st =>
  (Normal (length (sockets st)),
   set_sockets (sockets st ++ [{| readyState := CONNECTING; sent := [] |}]) st).

(** [ref.send(data)]: TypeError on [null]; InvalidStateError while
    CONNECTING; transmitted when OPEN; silently dropped when CLOSING or
    CLOSED. *)
Definition ws_send (ref : option nat) (data : Envelope) : M unit := fun st =>
  match ref with
  | None => (Throw, st)
  | Some i =>
      match sockets st !! i with
      | None => (Throw, st)
      | Some ws =>
          match readyState ws with
          | CONNECTING => (Throw, st)
          | OPEN =>
              (Normal tt,
               set_sockets
                 (<[i := {| readyState := OPEN; sent := sent ws ++ [data] |}]>
                    (sockets st)) st)
          | CLOSING | CLOSED => (Normal tt, st)
          end
      end
  end.

(** [ref.close()]: starts the closing handshake of a CONNECTING or OPEN
    socket; nothing on one that is CLOSING or CLOSED. *)
Definition ws_close (ref : option nat) : M unit := fun st =>
  match ref with
  | None => (Throw, st)
  | Some i =>
      match sockets st !! i with
      | None => (Throw, st)
      | Some ws =>
          match readyState ws with
          | CONNECTING | OPEN =>
              (Normal tt,
               set_sockets
                 (<[i := {| readyState := CLOSING; sent := sent ws |}]>
                    (sockets st)) st)
          | CLOSING | CLOSED => (Normal tt, st)
          end
      end
  end.

(** [ref.readyState !== WebSocket.OPEN] for a non-null [ref]. *)
Definition ws_is_open (ref : nat) (st : State) : bool :=
  match sockets st !! ref with
  | Some {| readyState := OPEN |} => true
  | _ => false
  end.

(** [setTimeout(callback, delay)] returns the handle of the new timer.
    A handle is the timer's position among all the timers armed so far:
    as in the browsers, no handle is given out twice. *)
Definition setTimeout (cb : Callback) (delay : N) : M nat := fun st =>
  (Normal (length (timers st)),
   set_timers
     (timers st ++ [{| due := (clock st + delay)%N; callback := cb; pending := true |}])
     st).

Definition cancel (t : Timer) : Timer :=
  {| due := due t; callback := callback t; pending := false |}.

(** [clearTimeout(handle)]: the timer, if still pending, never fires. *)
Definition clearTimeout (handle : nat) : M unit :=
  modify (fun st => set_timers (alter cancel handle (timers st)) st).

(** ** The script *)

(** Room configuration (app.js 51-56).  The [emoji] strings are the code
    units found in the source file. *)
Record RoomInfo := { name : jsstring; emoji : jsstring }.

Definition roomConfig : list (jsstring * RoomInfo) :=
  [ (lit "general", {| name := lit "General Chat"; emoji := [240; 376; 8217; 172]%N |});
    (lit "tech",    {| name := lit "Tech Talk";    emoji := [240; 376; 8217; 187]%N |});
    (lit "fun",     {| name := lit "Fun & Games";  emoji := [240; 376; 381; 174]%N |});
    (lit "random",  {| name := lit "Random";       emoji := [240; 376; 381; 178]%N |}) ].

(** The entry of [roomConfig] for [room], if the object literal has one. *)
Definition roomConfig_get (room : jsstring) : option RoomInfo :=
  snd <$> List.find (fun kv => bool_decide (fst kv = room)) roomConfig.

(** [roomConfig] is an object literal: a name it has no entry for is looked
    up in Object.prototype.  These are the properties found there, each
    with the [name] property of its value: a built-in method carries its
    own name, [constructor] is the function Object, and the accessor
    [__proto__] gives Object.prototype itself, which has no [name]. *)
Definition Object_prototype : list (jsstring * option jsstring) :=
  [ (lit "constructor", Some (lit "Object"));
    (lit "hasOwnProperty", Some (lit "hasOwnProperty"));
    (lit "isPrototypeOf", Some (lit "isPrototypeOf"));
    (lit "propertyIsEnumerable", Some (lit "propertyIsEnumerable"));
    (lit "toLocaleString", Some (lit "toLocaleString"));
    (lit "toString", Some (lit "toString"));
    (lit "valueOf", Some (lit "valueOf"));
    (lit "__defineGetter__", Some (lit "__defineGetter__"));
    (lit "__defineSetter__", Some (lit "__defineSetter__"));
    (lit "__lookupGetter__", Some (lit "__lookupGetter__"));
    (lit "__lookupSetter__", Some (lit "__lookupSetter__"));
    (lit "__proto__", None) ].

(** [roomConfig[room].name] as [textContent] takes it: [None] when
    [roomConfig[room]] is undefined, so that reading [name] raises a
    TypeError; the empty string when [name] is undefined. *)
Definition roomConfig_name (room : jsstring) : option jsstring :=
  match roomConfig_get room with
  | Some config => Some (name config)
  | None =>
      default (lit "")
        <$> (snd <$> List.find (fun kv => bool_decide (fst kv = room)) Object_prototype)
  end.

(** The frames of the wire protocol, as the object literals of the source. *)
Definition join_envelope (username room : jsstring) : Envelope :=
  [("username"%string, username); ("room"%string, room)].
Definition chat_envelope (message : jsstring) : Envelope :=
  [("type"%string, lit "chat"); ("message"%string, message)].
Definition typing_envelope : Envelope := [("type"%string, lit "typing")].
Definition stop_typing_envelope : Envelope := [("type"%string, lit "stop_typing")].

(** The [online] field of a stats frame.  It is a JSON number, so a double
    once parsed; the script reads of it whether it is 1 ([count === 1]) and
    the string a template literal gives for it, and these two are what the
    model keeps. *)
Record Count := { is_one : bool; printed : jsstring }.

(** A whole number of users up to 2^53, the range in which a JSON number is
    parsed exactly and printed as its decimal numeral. *)
Definition users_online (n : nat) : Count :=
  {| is_one := n =? 1; printed := String_of_nat n |}.

(** A server frame after [JSON.parse], by its [type] tag.  The fields have
    the types the relay server gives them: strings, a list of usernames, a
    number; a field that is absent ([undefined]) is [None].  Of the frames
    a server of another make could send, [chat_unnamed] is a chat frame
    whose [username] is absent or is not a string, and [other_type] a frame
    with any other [type], or none. *)
Inductive ServerData :=
| chat (username message : jsstring) (timestamp : option jsstring)
| chat_unnamed (message : jsstring) (timestamp : option jsstring)
| system (message : jsstring)
| typing (users : option (list jsstring))
| stats (online : Count)
| other_type.

(** showConnectionStatus (app.js 436-446) *)
Definition showConnectionStatus (message : jsstring) (showSpinner : bool) : M unit :=
  on_status (set_statusText_text message);;
  on_status (set_status_hidden false);;
  if showSpinner then on_status (set_spinner_display (lit "block"))
  else on_status (set_spinner_display (lit "none")).

(** updateRoomUI (app.js 389-392): reading [config.name] of an undefined
    [config] raises a TypeError. *)
Definition updateRoomUI : M unit :=
  room ← get currentRoom;
  match roomConfig_name room with
  | None => throw
  | Some title => on_chat (set_currentRoomEl_text title)
  end.

(** connectWebSocket (app.js 143-185).  The four handlers it installs are
    the same closures for every socket and are defined below. *)
Definition connectWebSocket : M unit :=
  showConnectionStatus (lit "Connecting...") true;;
  ws ← new_WebSocket;
  modify (set_socket (Some ws)).

(** socket.onopen (app.js 149-162).  [socket] is the global variable, read
    when the handler runs. *)
Definition socket_onopen : M unit :=
  s ← get socket;
  username ← get currentUsername;
  room ← get currentRoom;
  ws_send s (join_envelope username room);;
  showConnectionStatus (lit "Connected") false;;
  _ ← setTimeout HideStatus 2000;
  mret tt.

(** [socket.send(data)] on the global variable. *)
Definition socket_send (data : Envelope) : M unit :=
  s ← get socket;
  ws_send s data.

(** [socket && socket.readyState === WebSocket.OPEN] *)
Definition socket_is_open (st : State) : bool :=
  match socket st with
  | Some ref => ws_is_open ref st
  | None => false
  end.

(** addChatMessage (app.js 210-249); [now] is read only when [timestamp]
    is falsy. *)
Definition addChatMessage (now : Date) (username message : jsstring)
    (timestamp : option jsstring) : M unit :=
  me ← get currentUsername;
  let isOwn := bool_decide (username = me) in
  let className := lit "message " ++ (if isOwn then lit "own" else lit "") in
  let avatar := charAt0 username in
  let usernameEl := if isOwn then lit "You" else username in
  let timeEl :=
    match timestamp with
    | Some t => if truthy t then t else getCurrentTime now
    | None => getCurrentTime now
    end in
  on_chat (fun c =>
    set_messagesList
      (messagesList c ++ [ChatMessage className avatar usernameEl timeEl message]) c).

(** addSystemMessage (app.js 251-262) *)
Definition addSystemMessage (message : jsstring) : M unit :=
  on_chat (fun c => set_messagesList (messagesList c ++ [SystemMessage message]) c).

(** [`${users[i]}`] *)
Definition users_at (users : list jsstring) (i : nat) : jsstring :=
  default (lit "undefined") (users !! i).

(** updateTypingIndicator (app.js 295-313) *)
Definition updateTypingIndicator (users : option (list jsstring)) : M unit :=
  match users with
  | None => on_chat (set_typingIndicator_hidden true)
  | Some users =>
      if length users =? 0 then on_chat (set_typingIndicator_hidden true)
      else
        on_chat (set_typingIndicator_hidden false);;
        let text :=
          if length users =? 1 then
            users_at users 0 ++ lit " is typing..."
          else if length users =? 2 then
            users_at users 0 ++ lit " and " ++ users_at users 1 ++ lit " are typing..."
          else
            users_at users 0 ++ lit ", " ++ users_at users 1 ++ lit " and "
              ++ String_of_nat (length users - 2) ++ lit " others are typing..." in
        on_chat (set_typingText_text text)
  end.

(** updateOnlineCount (app.js 419-422) *)
Definition updateOnlineCount (count : Count) : M unit :=
  let plural := if is_one count then lit "" else lit "s" in
  on_chat (set_onlineCount_text
             (printed count ++ lit " user" ++ plural ++ lit " online")).

(** addChatMessage (app.js 210-218) called with a [username] that is
    undefined or not a string: [username === currentUsername] is false, the
    two elements created so far are not in the document, and
    [username.charAt(0)] raises a TypeError, so that nothing is appended. *)
Definition addChatMessage_unnamed : M unit := throw.

(** handleMessage (app.js 190-208) *)
Definition handleMessage (now : Date) (data : ServerData) : M unit :=
  match data with
  | chat username message timestamp => addChatMessage now username message timestamp
  | chat_unnamed _ _ => addChatMessage_unnamed
  | system message => addSystemMessage message
  | typing users => updateTypingIndicator users
  | stats online => updateOnlineCount online
  | other_type => mret tt
  end.

(** socket.onmessage (app.js 164-167); [None] is a payload the handler
    cannot read: text on which [JSON.parse] raises a SyntaxError, or the
    JSON value [null], of which [data.type] raises a TypeError. *)
Definition socket_onmessage (now : Date) (data : option ServerData) : M unit :=
  match data with
  | Some data => handleMessage now data
  | None => throw
  end.

(** socket.onerror (app.js 169-172) *)
Definition socket_onerror : M unit :=
  showConnectionStatus (lit "Connection error") false.

(** socket.onclose (app.js 174-184) *)
Definition socket_onclose : M unit :=
  showConnectionStatus (lit "Disconnected - Reconnecting...") true;;
  _ ← setTimeout Reconnect 2000;
  mret tt.

(** handleJoin (app.js 108-138) *)
Definition handleJoin : M unit :=
  username ← get (fun st => trim (usernameInput_value (loginScreen st)));
  room ← get (fun st => roomSelect_value (loginScreen st));
  if negb (truthy username) then
    on_login (set_usernameInput_borderColor (lit "var(--danger)"));;
    _ ← setTimeout ResetBorder 1000;
    mret tt
  else if 20 <? length username then
    mret tt
  else
    modify (set_currentUsername username);;
    modify (set_currentRoom room);;
    on_login (set_login_hidden true);;
    on_chat (set_chat_hidden false);;
    updateRoomUI;;
    connectWebSocket.

(** handleTyping (app.js 267-293).  Timer handles are positive in a
    browser, so [if (typingTimeout)] tests for [null]. *)
Definition handleTyping : M unit :=
  message ← get (fun st => trim (messageInput_value (chatScreen st)));
  on_chat (set_sendBtn_disabled (negb (truthy message)));;
  open ← get socket_is_open;
  if negb open then mret tt
  else
    typingNow ← get isTyping;
    (if truthy message && negb typingNow then
       modify (set_isTyping true);;
       socket_send typing_envelope
     else mret tt);;
    previous ← get typingTimeout;
    (match previous with
     | Some handle => clearTimeout handle
     | None => mret tt
     end);;
    handle ← setTimeout StopTyping 1000;
    modify (set_typingTimeout (Some handle)).

(** The callback handleTyping arms (app.js 287-292). *)
Definition stopTyping_callback : M unit :=
  typingNow ← get isTyping;
  if (typingNow : bool) then
    modify (set_isTyping false);;
    socket_send stop_typing_envelope
  else mret tt.

(** sendMessage (app.js 318-348) *)
Definition sendMessage (now : Date) : M unit :=
  message ← get (fun st => trim (messageInput_value (chatScreen st)));
  open ← get socket_is_open;
  if negb (truthy message) || negb open then mret tt
  else
    socket_send (chat_envelope message);;
    me ← get currentUsername;
    addChatMessage now me message (Some (getCurrentTime now));;
    on_chat (set_messageInput_value (lit ""));;
    on_chat (set_sendBtn_disabled true);;
    typingNow ← get isTyping;
    (if (typingNow : bool) then
       modify (set_isTyping false);;
       socket_send stop_typing_envelope
     else mret tt);;
    previous ← get typingTimeout;
    match previous with
    | Some handle => clearTimeout handle
    | None => mret tt
    end.

(** openRoomModal, closeRoomModal (app.js 353-368); the highlight of the
    current room's item is not part of the state. *)
Definition openRoomModal : M unit := on_chat (set_roomModal_hidden false).
Definition closeRoomModal : M unit := on_chat (set_roomModal_hidden true).

(** switchRoom (app.js 370-387) *)
Definition switchRoom (newRoom : jsstring) : M unit :=
  room ← get currentRoom;
  if bool_decide (newRoom = room) then mret tt
  else
    modify (set_currentRoom newRoom);;
    on_chat (set_messagesList []);;
    updateRoomUI;;
    s ← get socket;
    (match s with
     | Some _ => ws_close s
     | None => mret tt
     end);;
    connectWebSocket.

(** The click listener of a room item (app.js 95-101). *)
Definition roomItem_click (room : jsstring) : M unit :=
  current ← get currentRoom;
  (if bool_decide (room ≠ current) then switchRoom room else mret tt);;
  closeRoomModal.

(** handleLeave (app.js 397-414); [confirmed] is the answer to [confirm]. *)
Definition handleLeave (confirmed : bool) : M unit :=
  if confirmed then
    s ← get socket;
    (match s with
     | Some _ => ws_close s
     | None => mret tt
     end);;
    on_chat (set_messagesList []);;
    on_chat (set_messageInput_value (lit ""));;
    on_login (set_usernameInput_value (lit ""));;
    modify (set_currentUsername (lit ""));;
    on_chat (set_chat_hidden true);;
    on_login (set_login_hidden false)
  else mret tt.

(** The callback socket.onclose arms (app.js 179-183). *)
Definition reconnect_callback : M unit :=
  hidden ← get (fun st => chat_hidden (chatScreen st));
  if negb hidden then connectWebSocket else mret tt.

(** The input listeners of app.js 453-460. *)
Definition messageInput_oninput : M unit :=
  on_chat (fun c => set_messageInput_value (collapseSpaces (messageInput_value c)) c).

Definition usernameInput_oninput : M unit :=
  on_login (fun l => set_usernameInput_value (stripDisallowed (usernameInput_value l)) l).

(** What a timer runs when it fires. *)
Definition run_callback (cb : Callback) : M unit :=
  match cb with
  | ResetBorder => on_login (set_usernameInput_borderColor (lit ""))
  | HideStatus => on_status (set_status_hidden true)
  | Reconnect => reconnect_callback
  | StopTyping => stopTyping_callback
  end.

(** ** The event loop

    What the browser delivers to the script, one event at a time.  User
    events may come in any order; socket and timer events obey the
    WebSocket and timer interfaces: a socket opens once, from CONNECTING;
    delivers messages only while OPEN; closes once; a timer fires once,
    while pending and not before it is due. *)
Inductive Event :=
| usernameInput_input (value : jsstring)   (* the field now holds [value] *)
| usernameInput_Enter                      (* keypress, e.key === 'Enter' *)
| roomSelect_change (value : jsstring)
| joinBtn_click
| messageInput_input (value : jsstring)    (* the field now holds [value] *)
| messageInput_Enter (now : Date)          (* keypress, Enter without Shift *)
| sendBtn_click (now : Date)
| roomSwitchBtn_click
| closeModal_click
| roomItem_clicked (room : jsstring)       (* item.dataset.room *)
| leaveBtn_click (confirmed : bool)
| socket_open (ref : nat)
| socket_message (ref : nat) (now : Date) (data : option ServerData)
| socket_error (ref : nat)
| socket_close (ref : nat)
| timer_fire (handle : nat)
| tick (ms : N).

Definition set_readyState (r : ReadyState) (ws : WebSocket) : WebSocket :=
  {| readyState := r; sent := sent ws |}.

Definition readyState_at (ref : nat) (st : State) : option ReadyState :=
  readyState <$> sockets st !! ref.

Definition step (e : Event) (st : State) : option State :=
  match e with
  | usernameInput_input value =>
      Some (exec usernameInput_oninput
              (set_loginScreen (set_usernameInput_value value (loginScreen st)) st))
  | usernameInput_Enter => Some (exec handleJoin st)
  | roomSelect_change value =>
      Some (set_loginScreen (set_roomSelect_value value (loginScreen st)) st)
  | joinBtn_click => Some (exec handleJoin st)
  | messageInput_input value =>
      (* the listener of line 453 was added first, handleTyping second *)
      Some (exec handleTyping
              (exec messageInput_oninput
                 (set_chatScreen (set_messageInput_value value (chatScreen st)) st)))
  | messageInput_Enter now => Some (exec (sendMessage now) st)
  | sendBtn_click now => Some (exec (sendMessage now) st)
  | roomSwitchBtn_click => Some (exec openRoomModal st)
  | closeModal_click => Some (exec closeRoomModal st)
  | roomItem_clicked room => Some (exec (roomItem_click room) st)
  | leaveBtn_click confirmed => Some (exec (handleLeave confirmed) st)
  | socket_open ref =>
      match readyState_at ref st with
      | Some CONNECTING =>
          Some (exec socket_onopen
                  (set_sockets (alter (set_readyState OPEN) ref (sockets st)) st))
      | _ => None
      end
  | socket_message ref now data =>
      match readyState_at ref st with
      | Some OPEN => Some (exec (socket_onmessage now data) st)
      | _ => None
      end
  | socket_error ref =>
      match readyState_at ref st with
      | Some CLOSED | None => None
      | Some _ => Some (exec socket_onerror st)
      end
  | socket_close ref =>
      match readyState_at ref st with
      | Some CLOSED | None => None
      | Some _ =>
          Some (exec socket_onclose
                  (set_sockets (alter (set_readyState CLOSED) ref (sockets st)) st))
      end
  | timer_fire handle =>
      match timers st !! handle with
      | Some t =>
          if pending t && (due t <=? clock st)%N then
            Some (exec (run_callback (callback t))
                    (set_timers (alter cancel handle (timers st)) st))
          else None
      | None => None
      end
  | tick ms => Some (set_clock (clock st + ms)%N st)
  end.

Fixpoint run (events : list Event) (st : State) : option State :=
  match events with
  | [] => Some st
  | e :: events' =>
      match step e st with
      | Some st' => run events' st'
      | None => None
      end
  end.

(** The state when the script has been evaluated (app.js 9-13): no socket,
    no timer.  The page itself is not part of the sources; all that is
    asked of it is that the username field starts within the character
    class of its input listener (empty, on a fresh load). *)
Definition Initial (st : State) : Prop :=
  socket st = None /\ currentUsername st = lit "" /\
  currentRoom st = lit "general" /\ isTyping st = false /\
  typingTimeout st = None /\ sockets st = [] /\ timers st = [] /\
  Forall (fun c => usernameChar c = true) (usernameInput_value (loginScreen st)).

Definition reachable (st : State) : Prop :=
  exists st0 events, Initial st0 /\ run events st0 = Some st.

(** A freshly loaded page, for running the script on concrete events. *)
Definition fresh_page : State :=
  {| socket := None; currentUsername := lit ""; currentRoom := lit "general";
     isTyping := false; typingTimeout := None;
     loginScreen :=
       {| login_hidden := false; usernameInput_value := lit "";
          usernameInput_borderColor := lit ""; roomSelect_value := lit "general" |};
     chatScreen :=
       {| chat_hidden := true; currentRoomEl_text := lit "";
          onlineCount_text := lit ""; messagesList := [];
          messageInput_value := lit ""; sendBtn_disabled := true;
          typingIndicator_hidden := true; typingText_text := lit "";
          roomModal_hidden := true |};
     connectionStatus :=
       {| status_hidden := true; statusText_text := lit "";
          spinner_display := lit "" |};
     sockets := []; timers := []; clock := 0%N |}.

(** The frames sent on the socket [ref] so far. *)
Definition sent_on (ref : nat) (st : State) : list Envelope :=
  default [] (sent <$> sockets st !! ref).

(** ** The relay server *)

Module Server.

(** Modelled from the spec: the server (backend/main.py, of which only the
    README is at hand) is missing; what follows is sections 3, 4.1, 4.2
    and 4.5 of the specification: the Connection record, the Registry with
    its two maps, [admit], [remove], [membersOf], the Room Broadcaster and
    the Session Dispatcher's handling of a chat envelope. *)

(** Modelled from the spec: the socket handle of a connection, as far as
    the broadcaster uses it: the envelopes written to it, oldest first,
    and whether a write to it succeeds. *)
Record Socket := { written : list ServerData; writable : bool }.

(** Modelled from the spec: the Connection of section 3; its id is its
    key in the registry. *)
Record Connection := {
  conn_socket : Socket;
  conn_username : jsstring;
  conn_room : jsstring;
  joinedAt : N
}.

(** Modelled from the spec: the Registry of section 3, with the two
    mappings it owns and the next id to hand out. *)
Record Registry := {
  connections : gmap nat Connection;   (* connection id -> Connection *)
  rooms : gmap (list N) (gset nat);    (* room name -> member set *)
  next_id : nat
}.

(** Modelled from the spec: the two join-time errors of section 7. *)
Inductive AdmitError := InvalidUsername | UnknownRoom.

(** Modelled from the spec: the fixed set of rooms, known at startup. *)
Definition room_names : list jsstring :=
  [lit "general"; lit "tech"; lit "fun"; lit "random"].

(** Modelled from the spec: the registry at startup, every room empty. *)
Definition startup : Registry :=
  {| connections := ∅;
     rooms := list_to_map ((fun r => (r, ∅)) <$> room_names);
     next_id := 0 |}.

(** Modelled from the spec: "username (1-20 chars,
    alphanumeric/underscore/space only)". *)
Definition valid_username (username : jsstring) : bool :=
  (1 <=? length username) && (length username <=? 20)
  && forallb (fun c => isAlnum c || isUnderscore c || (c =? 32)%N) username.

(** Modelled from the spec: [membersOf(room)], a snapshot of the member set. *)
Definition membersOf (room : jsstring) (reg : Registry) : gset nat :=
  default ∅ (rooms reg !! room).

(** Modelled from the spec: [admit(socket, username, room)] of section
    4.1, together with the time of the join. *)
Definition admit_connection (sock : Socket) (username room : jsstring) (now : N)
    (reg : Registry) : AdmitError + (nat * Registry) :=
  if negb (valid_username username) then inl InvalidUsername
  else
    match rooms reg !! room with
    | None => inl UnknownRoom
    | Some members =>
        let id := next_id reg in
        inr (id,
             {| connections :=
                  <[id := {| conn_socket := sock; conn_username := username;
                             conn_room := room; joinedAt := now |}]>
                    (connections reg);
                rooms := <[room := members ∪ {[id]}]> (rooms reg);
                next_id := S id |})
    end.

(** Modelled from the spec: [remove(id)], a no-op on an absent id. *)
Definition remove (id : nat) (reg : Registry) : Registry :=
  match connections reg !! id with
  | None => reg
  | Some c =>
      {| connections := delete id (connections reg);
         rooms := alter (fun members => members ∖ {[id]}) (conn_room c) (rooms reg);
         next_id := next_id reg |}
  end.

(** Modelled from the spec: one write of a broadcast; on a socket that
    takes it the envelope is appended, a failing socket observes nothing. *)
Definition write (envelope : ServerData) (c : Connection) : Connection :=
  if writable (conn_socket c) then
    {| conn_socket :=
         {| written := written (conn_socket c) ++ [envelope]; writable := true |};
       conn_username := conn_username c; conn_room := conn_room c;
       joinedAt := joinedAt c |}
  else c.

(** Modelled from the spec: the members a broadcast writes to, every
    member of [room] but [excludeId]. *)
Definition recipients (room : jsstring) (excludeId : option nat)
    (reg : Registry) : gset nat :=
  match excludeId with
  | Some id => membersOf room reg ∖ {[id]}
  | None => membersOf room reg
  end.

(** Modelled from the spec: [broadcast(room, envelope, excludeId)].  Every
    recipient is written to, each independently of the others; the ids
    whose write failed are returned, for the dispatcher to remove. *)
Definition broadcast (room : jsstring) (envelope : ServerData)
    (excludeId : option nat) (reg : Registry) : Registry * list nat :=
  let to := recipients room excludeId reg in
  ({| connections :=
        map_imap (fun id c =>
                    Some (if bool_decide (id ∈ to) then write envelope c else c))
                 (connections reg);
      rooms := rooms reg;
      next_id := next_id reg |},
   List.filter
     (fun id => match connections reg !! id with
                | Some c => negb (writable (conn_socket c))
                | None => false
                end)
     (elements to)).

(** Modelled from the spec: the Session Dispatcher, Active state, on
    [chat {message}]: a chat envelope goes to the sender's room, the
    sender included. *)
Definition on_chat_envelope (sender : nat) (message timestamp : jsstring)
    (reg : Registry) : Registry * list nat :=
  match connections reg !! sender with
  | None => (reg, [])
  | Some c =>
      broadcast (conn_room c)
        (chat (conn_username c) message (Some timestamp)) None reg
  end.

(** Modelled from the spec: what the connection [id] has observed so far. *)
Definition observed (id : nat) (reg : Registry) : list ServerData :=
  match connections reg !! id with
  | Some c => written (conn_socket c)
  | None => []
  end.

(** Modelled from the spec: the registries the server can be in,
    [startup], then joins, leaves and broadcasts. *)
Inductive Reachable : Registry -> Prop :=
| Reachable_startup : Reachable startup
| Reachable_admit reg sock username room now id reg' :
    Reachable reg ->
    admit_connection sock username room now reg = inr (id, reg') ->
    Reachable reg'
| Reachable_remove reg id :
    Reachable reg -> Reachable (remove id reg)
| Reachable_broadcast reg room envelope excludeId :
    Reachable reg -> Reachable (fst (broadcast room envelope excludeId reg)).

End Server.

(** * Properties *)

(** ** Timestamps *)

(** The code unit of a decimal digit. *)
Definition digit (z : Z) : N := (48 + Z.to_N z)%N.

Lemma padStart_two_digits (z : Z) :
  (0 <= z < 100)%Z ->
  padStart 2 (lit "0") (String_of_Z z) = [digit (z / 10); digit (z mod 10)].
Proof.
  intros Hz.
  assert (Hn : exists n : nat, n < 100 /\ z = Z.of_nat n).
  { exists (Z.to_nat z). split; lia. }
  destruct Hn as (n & Hn & ->). clear Hz.
  do 100 (destruct n as [|n]; [reflexivity|]).
  lia.
Qed.

Lemma getHours_range (now : Date) : (0 <= getHours now < 24)%Z.
Proof. unfold getHours. apply Z.mod_pos_bound. lia. Qed.

Lemma getMinutes_range (now : Date) : (0 <= getMinutes now < 60)%Z.
Proof. unfold getMinutes. apply Z.mod_pos_bound. lia. Qed.

(** C8: for every wall-clock time, [getCurrentTime] is five code units:
    the two decimal digits of the hour (00 to 23, zero-padded), a colon,
    and the two decimal digits of the minute (00 to 59, zero-padded). *)
Theorem getCurrentTime_HH_MM (now : Date) :
  let h := getHours now in
  let m := getMinutes now in
  (0 <= h <= 23)%Z /\ (0 <= m <= 59)%Z /\
  getCurrentTime now
  = [digit (h / 10); digit (h mod 10); 58%N; digit (m / 10); digit (m mod 10)] /\
  length (getCurrentTime now) = 5.
Proof.
  intros h m.
  pose proof (getHours_range now) as Hh.
  pose proof (getMinutes_range now) as Hm.
  fold h in Hh. fold m in Hm.
  assert (Heq : getCurrentTime now
                = [digit (h / 10); digit (h mod 10); 58%N;
                   digit (m / 10); digit (m mod 10)]).
  { unfold getCurrentTime. fold h m.
    rewrite !padStart_two_digits by lia. reflexivity. }
  repeat split; try lia; [exact Heq | now rewrite Heq].
Qed.

(** ** The typing indicator *)

(** C7: the indicator is hidden for an absent or empty list; otherwise it
    is shown and its text names the first two users of the list, in the
    order received: one user "is typing...", two users "and ... are
    typing...", and from three users on the first two followed by the
    count of the others, n - 2. *)
Theorem updateTypingIndicator_text (st : State) :
  let hidden users :=
    typingIndicator_hidden (chatScreen (exec (updateTypingIndicator users) st)) in
  let text users :=
    typingText_text (chatScreen (exec (updateTypingIndicator users) st)) in
  hidden None = true /\
  hidden (Some []) = true /\
  (forall u0, hidden (Some [u0]) = false /\
              text (Some [u0]) = u0 ++ lit " is typing...") /\
  (forall u0 u1, hidden (Some [u0; u1]) = false /\
                 text (Some [u0; u1])
                 = u0 ++ lit " and " ++ u1 ++ lit " are typing...") /\
  (forall u0 u1 u2 rest,
      let users := u0 :: u1 :: u2 :: rest in
      hidden (Some users) = false /\
      text (Some users)
      = u0 ++ lit ", " ++ u1 ++ lit " and "
           ++ String_of_nat (length users - 2) ++ lit " others are typing...").
Proof.
  cbv zeta. repeat split; reflexivity.
Qed.

(** ** Invariants of the event loop *)

(** The two frames of the typing protocol. *)
Inductive Kind := KTyping | KStop.

Definition kind_of (e : Envelope) : option Kind :=
  if bool_decide (e = typing_envelope) then Some KTyping
  else if bool_decide (e = stop_typing_envelope) then Some KStop
  else None.

(** The typing and stop_typing frames of a log, in order. *)
Definition typing_kinds (log : list Envelope) : list Kind := omap kind_of log.

(** No two neighbours are the same. *)
Fixpoint alternating (ks : list Kind) : Prop :=
  match ks with
  | a :: (b :: _) as ks' => a <> b /\ alternating ks'
  | _ => True
  end.

(** The flag agrees with the last typing frame of the current socket. *)
Definition flag_agrees (flag : bool) (k : option Kind) : Prop :=
  match k with
  | Some KTyping => flag = true
  | Some KStop => flag = false
  | None => True
  end.

(** The value of a field of a frame. *)
Definition field (k : string) (e : Envelope) : option jsstring :=
  snd <$> List.find (fun kv => String.eqb (fst kv) k) e.

Definition is_join (e : Envelope) : Prop :=
  exists username room, e = join_envelope username room.

Definition starts_with_join (log : list Envelope) : Prop :=
  match log with
  | [] => True
  | e :: _ => is_join e
  end.

Definition username_chars (s : jsstring) : Prop :=
  Forall (fun c => usernameChar c = true) s.

Definition username_ok (e : Envelope) : Prop :=
  forall u, field "username" e = Some u -> username_chars u.

(** What holds of every WebSocket object the script has created. *)
Record socket_ok (ws : WebSocket) : Prop := {
  ok_connecting : readyState ws = CONNECTING -> sent ws = [];
  ok_first : starts_with_join (sent ws);
  ok_alternating : alternating (typing_kinds (sent ws));
  ok_usernames : Forall username_ok (sent ws)
}.

(** What holds of the socket the global variable refers to. *)
Definition current_ok (st : State) : Prop :=
  match socket st with
  | None => True
  | Some ref =>
      match sockets st !! ref with
      | None => False
      | Some ws =>
          readyState ws = OPEN ->
          sent ws <> [] /\ flag_agrees (isTyping st) (last (typing_kinds (sent ws)))
      end
  end.

(** Every pending stop-typing timer is the one [typingTimeout] holds. *)
Definition timers_ok (ts : list Timer) (held : option nat) : Prop :=
  forall handle t,
    ts !! handle = Some t -> callback t = StopTyping -> pending t = true ->
    held = Some handle.

Definition stop_timer_ok (st : State) : Prop :=
  timers_ok (timers st) (typingTimeout st).

Record Inv (st : State) : Prop := {
  inv_sockets : Forall socket_ok (sockets st);
  inv_current : current_ok st;
  inv_input : username_chars (usernameInput_value (loginScreen st));
  inv_username : username_chars (currentUsername st);
  inv_timers : stop_timer_ok st
}.

Lemma alternating_snoc ks k :
  alternating ks -> last ks <> Some k -> alternating (ks ++ [k]).
Proof.
  induction ks as [|a [|b ks] IH]; simpl; intros Halt Hlast.
  - exact I.
  - split; [congruence | exact I].
  - destruct Halt as [Hab Halt]. split; [exact Hab|].
    apply IH; assumption.
Qed.

Lemma typing_kinds_snoc log e :
  typing_kinds (log ++ [e]) = typing_kinds log ++ option_list (kind_of e).
Proof.
  unfold typing_kinds. rewrite omap_app. simpl. destruct (kind_of e); reflexivity.
Qed.

Lemma trimStart_chars s : username_chars s -> username_chars (trimStart s).
Proof.
  unfold username_chars. induction 1 as [|c s Hc Hs IH]; simpl; [constructor|].
  destruct (isWhiteSpace c); [exact IH | constructor; assumption].
Qed.

Lemma trim_chars s : username_chars s -> username_chars (trim s).
Proof.
  intros H. unfold trim, trimEnd. unfold username_chars.
  apply Forall_rev. apply trimStart_chars. apply Forall_rev.
  apply trimStart_chars. exact H.
Qed.

Lemma stripDisallowed_chars s : username_chars (stripDisallowed s).
Proof.
  unfold username_chars, stripDisallowed. apply List.Forall_forall.
  intros c Hc. apply List.filter_In in Hc. tauto.
Qed.


Lemma kind_of_join u r : kind_of (join_envelope u r) = None.
Proof. reflexivity. Qed.

Lemma kind_of_chat m : kind_of (chat_envelope m) = None.
Proof. reflexivity. Qed.

Lemma kind_of_typing : kind_of typing_envelope = Some KTyping.
Proof. reflexivity. Qed.

Lemma kind_of_stop_typing : kind_of stop_typing_envelope = Some KStop.
Proof. reflexivity. Qed.

Lemma username_ok_join u r : username_chars u -> username_ok (join_envelope u r).
Proof. intros Hu v Hv. cbv in Hv. congruence. Qed.

Lemma username_ok_untagged e : field "username" e = None -> username_ok e.
Proof. intros He u Hu. congruence. Qed.

Lemma socket_ok_new : socket_ok {| readyState := CONNECTING; sent := [] |}.
Proof. split; simpl; auto. Qed.

Lemma socket_ok_open_empty : socket_ok {| readyState := OPEN; sent := [] |}.
Proof. split; simpl; auto. Qed.

Lemma socket_ok_set_readyState r ws :
  socket_ok ws -> (r = CONNECTING -> sent ws = []) ->
  socket_ok (set_readyState r ws).
Proof. intros [H1 H2 H3 H4] Hr. split; simpl; auto. Qed.

Lemma starts_with_join_snoc log e :
  starts_with_join log -> (log = [] -> is_join e) -> starts_with_join (log ++ [e]).
Proof. destruct log; simpl; auto. Qed.

Lemma socket_ok_snoc log e :
  socket_ok {| readyState := OPEN; sent := log |} ->
  (log = [] -> is_join e) ->
  username_ok e ->
  (forall k, kind_of e = Some k -> last (typing_kinds log) <> Some k) ->
  socket_ok {| readyState := OPEN; sent := log ++ [e] |}.
Proof.
  intros [H1 H2 H3 H4] Hjoin Hname Hkind. simpl in *. split; simpl.
  - discriminate.
  - apply starts_with_join_snoc; assumption.
  - rewrite typing_kinds_snoc. destruct (kind_of e) as [k|]; simpl.
    + apply alternating_snoc; auto.
    + rewrite app_nil_r. assumption.
  - apply Forall_app. split; [assumption | repeat constructor; assumption].
Qed.

Lemma username_ok_chat m : username_ok (chat_envelope m).
Proof. apply username_ok_untagged. reflexivity. Qed.

Lemma username_ok_typing : username_ok typing_envelope.
Proof. apply username_ok_untagged. reflexivity. Qed.

Lemma username_ok_stop_typing : username_ok stop_typing_envelope.
Proof. apply username_ok_untagged. reflexivity. Qed.

Lemma current_ok_open st ref ws :
  current_ok st -> socket st = Some ref -> sockets st !! ref = Some ws ->
  readyState ws = OPEN ->
  sent ws <> [] /\ flag_agrees (isTyping st) (last (typing_kinds (sent ws))).
Proof.
  unfold current_ok. intros Hc Hs Hl Ho. rewrite Hs, Hl in Hc. auto.
Qed.

Lemma current_ok_valid st ref :
  current_ok st -> socket st = Some ref -> ref < length (sockets st).
Proof.
  unfold current_ok. intros Hc Hs. rewrite Hs in Hc.
  destruct (sockets st !! ref) eqn:Hl; [|contradiction].
  eapply lookup_lt_Some; eassumption.
Qed.

Lemma last_typing_kinds_snoc log e :
  last (typing_kinds (log ++ [e]))
  = match kind_of e with
    | Some k => Some k
    | None => last (typing_kinds log)
    end.
Proof.
  rewrite typing_kinds_snoc. destruct (kind_of e); simpl.
  - apply last_snoc.
  - now rewrite app_nil_r.
Qed.

Lemma timers_ok_cancel ts held k :
  timers_ok ts held -> timers_ok (alter cancel k ts) held.
Proof.
  intros Hok handle t Hl Hcb Hp.
  destruct (decide (k = handle)) as [->|Hne].
  - rewrite list_lookup_alter_eq in Hl.
    destruct (ts !! handle); simplify_eq/=.
  - rewrite list_lookup_alter_ne in Hl by assumption. eauto.
Qed.

Lemma timers_ok_other ts held t :
  timers_ok ts held -> callback t <> StopTyping -> timers_ok (ts ++ [t]) held.
Proof.
  intros Hok Hcb handle t' Hl Hcb' Hp.
  apply lookup_app_Some in Hl as [Hl | [_ Hl]]; [eauto|].
  apply list_lookup_singleton_Some in Hl as [_ ->]. contradiction.
Qed.

Lemma timers_ok_arm ts t :
  timers_ok ts None -> timers_ok (ts ++ [t]) (Some (length ts)).
Proof.
  intros Hok handle t' Hl Hcb Hp.
  apply lookup_app_Some in Hl as [Hl | [Hge Hl]].
  - specialize (Hok _ _ Hl Hcb Hp). discriminate.
  - apply list_lookup_singleton_Some in Hl as [Hz _]. f_equal. lia.
Qed.

Lemma timers_ok_rearm ts k t :
  timers_ok ts (Some k) ->
  timers_ok (alter cancel k ts ++ [t]) (Some (length ts)).
Proof.
  intros Hok handle t' Hl Hcb Hp.
  apply lookup_app_Some in Hl as [Hl | [Hge Hl]]; rewrite ?length_alter in *.
  - destruct (decide (k = handle)) as [->|Hne].
    + rewrite list_lookup_alter_eq in Hl.
      destruct (ts !! handle); simplify_eq/=.
    + rewrite list_lookup_alter_ne in Hl by assumption.
      specialize (Hok _ _ Hl Hcb Hp). congruence.
  - apply list_lookup_singleton_Some in Hl as [Hz _]. f_equal. lia.
Qed.


(** A small weakest-precondition calculus for handlers. *)
Definition wp {A} (m : M A) (K : Completion A -> State -> Prop) (st : State) : Prop :=
  K (m st).1 (m st).2.

Lemma wp_exec {A} (m : M A) (P : State -> Prop) st :
  wp m (fun _ st' => P st') st -> P (exec m st).
Proof. exact id. Qed.

Lemma wp_bind {A B} (m : M A) (f : A -> M B) K st :
  wp m (fun c st' => match c with
                     | Normal a => wp (f a) K st'
                     | Throw => K Throw st'
                     end) st ->
  wp (m ≫= f) K st.
Proof. unfold wp, mbind, M_bind. destruct (m st) as [[a|] st']; auto. Qed.

Lemma wp_ret {A} (a : A) K st : K (Normal a) st -> wp (mret a) K st.
Proof. exact id. Qed.

Lemma wp_get {A} (f : State -> A) K st : K (Normal (f st)) st -> wp (get f) K st.
Proof. exact id. Qed.

Lemma wp_modify f K st : K (Normal tt) (f st) -> wp (modify f) K st.
Proof. exact id. Qed.

Lemma wp_throw {A} K st : K Throw st -> wp (@throw A) K st.
Proof. exact id. Qed.

Lemma wp_new_WebSocket K st :
  K (Normal (length (sockets st)))
    (set_sockets (sockets st ++ [{| readyState := CONNECTING; sent := [] |}]) st) ->
  wp new_WebSocket K st.
Proof. exact id. Qed.

Lemma wp_setTimeout cb delay K st :
  K (Normal (length (timers st)))
    (set_timers (timers st ++ [{| due := (clock st + delay)%N; callback := cb;
                                  pending := true |}]) st) ->
  wp (setTimeout cb delay) K st.
Proof. exact id. Qed.

Lemma wp_ws_send ref data K st :
  match ref with
  | None => K Throw st
  | Some i =>
      match sockets st !! i with
      | None => K Throw st
      | Some ws =>
          match readyState ws with
          | CONNECTING => K Throw st
          | OPEN =>
              K (Normal tt)
                (set_sockets
                   (<[i := {| readyState := OPEN; sent := sent ws ++ [data] |}]>
                      (sockets st)) st)
          | CLOSING | CLOSED => K (Normal tt) st
          end
      end
  end ->
  wp (ws_send ref data) K st.
Proof.
  unfold wp, ws_send. destruct ref as [i|]; [|exact id].
  destruct (sockets st !! i) as [ws|]; [|exact id].
  destruct (readyState ws); exact id.
Qed.

Lemma wp_ws_close ref K st :
  match ref with
  | None => K Throw st
  | Some i =>
      match sockets st !! i with
      | None => K Throw st
      | Some ws =>
          match readyState ws with
          | CONNECTING | OPEN =>
              K (Normal tt)
                (set_sockets
                   (<[i := {| readyState := CLOSING; sent := sent ws |}]>
                      (sockets st)) st)
          | CLOSING | CLOSED => K (Normal tt) st
          end
      end
  end ->
  wp (ws_close ref) K st.
Proof.
  unfold wp, ws_close. destruct ref as [i|]; [|exact id].
  destruct (sockets st !! i) as [ws|]; [|exact id].
  destruct (readyState ws); exact id.
Qed.

Ltac proj_simpl :=
  cbn [socket currentUsername currentRoom isTyping typingTimeout loginScreen
       chatScreen connectionStatus sockets timers clock
       set_socket set_currentUsername set_currentRoom set_isTyping
       set_typingTimeout set_loginScreen set_chatScreen set_connectionStatus
       set_sockets set_timers set_clock
       login_hidden usernameInput_value usernameInput_borderColor roomSelect_value
       set_login_hidden set_usernameInput_value set_usernameInput_borderColor
       set_roomSelect_value
       chat_hidden currentRoomEl_text onlineCount_text messagesList
       messageInput_value sendBtn_disabled typingIndicator_hidden typingText_text
       roomModal_hidden
       set_chat_hidden set_currentRoomEl_text set_onlineCount_text set_messagesList
       set_messageInput_value set_sendBtn_disabled set_typingIndicator_hidden
       set_typingText_text set_roomModal_hidden
       status_hidden statusText_text spinner_display
       set_status_hidden set_statusText_text set_spinner_display
       readyState sent] in *.

Ltac head_of t :=
  lazymatch t with
  | ?f _ => head_of f
  | _ => t
  end.

Ltac wp_step :=
  lazymatch goal with
  | |- wp (mbind _ _) _ _ => apply wp_bind
  | |- wp (mret _) _ _ => apply wp_ret
  | |- wp (get _) _ _ => apply wp_get
  | |- wp (modify _) _ _ => apply wp_modify
  | |- wp throw _ _ => apply wp_throw
  | |- wp new_WebSocket _ _ => apply wp_new_WebSocket
  | |- wp (setTimeout _ _) _ _ => apply wp_setTimeout
  | |- wp (ws_send _ _) _ _ => apply wp_ws_send
  | |- wp (ws_close _) _ _ => apply wp_ws_close
  | |- wp (if ?b then _ else _) _ _ => destruct b eqn:?
  | |- wp (match ?x with _ => _ end) _ _ => destruct x eqn:?
  | |- match ?x with _ => _ end => destruct x eqn:?
  | |- wp ?m _ _ =>
      let h := head_of m in unfold h
  end; lazy beta iota; proj_simpl.

Ltac wp_run := repeat wp_step.


Lemma socket_is_open_true st :
  socket_is_open st = true ->
  exists ref ws, socket st = Some ref /\ sockets st !! ref = Some ws /\
                 readyState ws = OPEN.
Proof.
  unfold socket_is_open, ws_is_open. intros H.
  destruct (socket st) as [ref|]; [|discriminate].
  destruct (sockets st !! ref) as [[[] log]|] eqn:Hl; try discriminate.
  eauto.
Qed.

Lemma current_ok_same st st' :
  socket st' = socket st -> sockets st' = sockets st -> isTyping st' = isTyping st ->
  current_ok st -> current_ok st'.
Proof. unfold current_ok. now intros -> -> ->. Qed.

Lemma current_ok_none st : socket st = None -> current_ok st.
Proof. unfold current_ok. now intros ->. Qed.

Lemma current_ok_some st ref ws :
  socket st = Some ref -> sockets st !! ref = Some ws ->
  (readyState ws = OPEN ->
   sent ws <> [] /\ flag_agrees (isTyping st) (last (typing_kinds (sent ws)))) ->
  current_ok st.
Proof. unfold current_ok. now intros -> ->. Qed.

Lemma username_chars_empty : username_chars (lit "").
Proof. constructor. Qed.

Lemma current_ok_set_readyState st st' ref r :
  current_ok st -> socket st' = socket st -> isTyping st' = isTyping st ->
  sockets st' = alter (set_readyState r) ref (sockets st) -> r <> OPEN ->
  current_ok st'.
Proof.
  unfold current_ok. intros Hc -> -> -> Hr.
  destruct (socket st) as [n|]; [|exact I].
  destruct (decide (ref = n)) as [->|Hne].
  - rewrite list_lookup_alter_eq. destruct (sockets st !! n); simpl; [|assumption].
    intros; contradiction.
  - rewrite list_lookup_alter_ne by assumption. assumption.
Qed.

Opaque lit trim collapseSpaces stripDisallowed getCurrentTime roomConfig_name String_of_nat truthy charAt0.

Ltac lookup_side :=
  rewrite ?length_insert, ?length_alter, ?length_app; simpl;
  first [ eapply lookup_lt_Some; eassumption
        | match goal with
          | Hc : current_ok ?st, H0 : socket ?st = Some ?n |- _ =>
              pose proof (current_ok_valid st n Hc H0); lia
          end
        | lia ].

Ltac lookup_norm :=
  repeat match goal with
  | H : context [<[?n := _]> ?l !! ?n] |- _ =>
      rewrite list_lookup_insert_eq in H by lookup_side; simplify_eq/=
  | |- context [<[?n := _]> ?l !! ?n] =>
      rewrite list_lookup_insert_eq by lookup_side
  | H : context [readyState_at _ _] |- _ => unfold readyState_at in H
  | H : _ <$> _ = Some _ |- _ =>
      let w := fresh "w" in let Hw := fresh "Hw" in let Hr := fresh "Hr" in
      apply fmap_Some in H as (w & Hw & Hr); symmetry in Hr; simplify_eq/=
  | H : _ <$> ?x = None, E : ?x = Some _ |- _ => rewrite E in H; discriminate
  | H : context [alter ?f ?i ?l !! ?j] |- _ =>
      first [ constr_eq i j; rewrite list_lookup_alter_eq in H
            | destruct (decide (i = j));
              [ subst; rewrite list_lookup_alter_eq in H
              | rewrite list_lookup_alter_ne in H by assumption ] ]
  | H : context [(?l ++ [_]) !! length ?l] |- _ =>
      rewrite list_lookup_middle in H by reflexivity; simplify_eq/=
  | |- context [(?l ++ [_]) !! length ?l] =>
      rewrite list_lookup_middle by reflexivity
  | Hc : current_ok ?st, H0 : socket ?st = Some ?n, H : sockets ?st !! ?n = None |- _ =>
      exfalso; apply lookup_ge_None_1 in H;
      pose proof (current_ok_valid st n Hc H0); lia
  end.

Ltac norm_hyps :=
  simplify_eq;
  repeat match goal with
  | H : _ || _ = false |- _ => apply orb_false_iff in H; destruct H
  | H : _ && _ = true |- _ => apply andb_true_iff in H; destruct H
  | H : negb _ = false |- _ => apply negb_false_iff in H
  | H : negb _ = true |- _ => apply negb_true_iff in H
  | H : socket_is_open _ = true |- _ =>
      apply socket_is_open_true in H; destruct H as (? & ? & ? & ? & ?)
  end;
  proj_simpl; simplify_eq; lookup_norm.

Ltac facts :=
  repeat match goal with
  | Hc : current_ok ?st, H0 : socket ?st = Some ?n,
    H1 : sockets ?st !! ?n = Some ?ws, H2 : readyState ?ws = OPEN |- _ =>
      lazymatch goal with
      | _ : flag_agrees (isTyping st) _ |- _ => fail
      | _ =>
        let Hne := fresh "Hne" in let Hfl := fresh "Hfl" in
        destruct (current_ok_open st n ws Hc H0 H1 H2) as [Hne Hfl]
      end
  | Hs : Forall socket_ok (sockets ?st), H1 : sockets ?st !! ?n = Some ?ws |- _ =>
      lazymatch goal with
      | _ : socket_ok ws |- _ => fail
      | _ => pose proof (Forall_lookup_1 _ _ _ _ Hs H1)
      end
  | H : socket_ok ?ws, E : readyState ?ws = CONNECTING |- _ =>
      lazymatch goal with
      | _ : sent ws = [] |- _ => fail
      | _ => pose proof (ok_connecting ws H E)
      end
  end;
  repeat match goal with
  | E : sent ?ws = [] |- context [sent ?ws] => rewrite E
  end.

Ltac kinds :=
  let k := fresh "k" in let Hk := fresh "Hk" in
  intros k Hk;
  rewrite ?kind_of_join, ?kind_of_chat, ?kind_of_typing, ?kind_of_stop_typing in Hk;
  simplify_eq;
  rewrite ?last_typing_kinds_snoc, ?kind_of_join, ?kind_of_chat, ?kind_of_typing,
    ?kind_of_stop_typing;
  repeat match goal with
  | H : flag_agrees _ (last (typing_kinds ?l)) |- _ =>
      destruct (last (typing_kinds l)) as [[]|]; cbn [flag_agrees] in H
  end;
  congruence.


Ltac sockets_ok :=
  repeat first
    [ assumption
    | apply Forall_insert
    | apply Forall_app_2
    | apply socket_ok_snoc
    | apply socket_ok_new
    | apply socket_ok_open_empty
    | apply Forall_alter;
      [| intros ? ? ?; apply socket_ok_set_readyState; [assumption | discriminate]]
    | apply username_ok_chat | apply username_ok_typing | apply username_ok_stop_typing
    | apply username_ok_join; assumption
    | match goal with
      | H : socket_ok ?ws |- socket_ok {| readyState := _; sent := sent ?ws |} =>
          apply (socket_ok_set_readyState _ ws H)
      | H : socket_ok ?ws, E : readyState ?ws = OPEN
        |- socket_ok {| readyState := OPEN; sent := sent ?ws ++ _ |} =>
          destruct ws; cbn [sent readyState] in *; subst
      end
    | solve [repeat constructor; simpl; auto]
    | solve [intros; simpl in *; congruence]
    | solve [let H := fresh in intros H; apply app_eq_nil in H; destruct H; discriminate]
    | solve [intros; eexists _, _; reflexivity]
    | solve [kinds] ].

Ltac lookup_goal :=
  proj_simpl;
  first [ eassumption
        | apply list_lookup_insert_eq; lookup_side
        | apply list_lookup_middle; rewrite ?length_insert, ?length_alter; reflexivity ].

Ltac current_goal :=
  first
    [ match goal with
      | Hc : current_ok ?st |- _ =>
          apply (current_ok_same st); [reflexivity | reflexivity | reflexivity | exact Hc]
      end
    | match goal with
      | Hc : current_ok ?st |- _ =>
          eapply (current_ok_set_readyState st);
          [exact Hc | reflexivity | reflexivity | reflexivity | discriminate]
      end
    | apply current_ok_none; proj_simpl; assumption
    | eapply current_ok_some;
      [ proj_simpl; first [eassumption | reflexivity]
      | first [ lookup_goal
              | proj_simpl; rewrite list_lookup_alter_ne by assumption; eassumption ]
      | proj_simpl; intros; first [ discriminate | congruence | split;
        [ first [ assumption
                | let H := fresh in intros H; apply app_eq_nil in H; destruct H; discriminate ]
        | rewrite ?last_typing_kinds_snoc, ?kind_of_join, ?kind_of_chat,
            ?kind_of_typing, ?kind_of_stop_typing; cbn [flag_agrees];
          first [ reflexivity | assumption | congruence
                | repeat match goal with
                  | H : flag_agrees _ (last (typing_kinds ?l)) |- _ =>
                      destruct (last (typing_kinds l)) as [[]|]; cbn [flag_agrees] in *
                  end; congruence ] ] ] ] ].

Ltac timers_goal :=
  unfold stop_timer_ok in *; proj_simpl;
  repeat match goal with
  | H : typingTimeout ?st = _, Ht : timers_ok _ (typingTimeout ?st) |- _ =>
      rewrite H in Ht
  | H : typingTimeout ?st = _ |- context [typingTimeout ?st] => rewrite H
  end;
  rewrite ?length_alter;
  repeat first
    [ assumption
    | apply timers_ok_rearm
    | apply timers_ok_arm
    | apply timers_ok_cancel
    | apply timers_ok_other; [| discriminate] ].

Ltac inv_leaf :=
  norm_hyps; facts;
  first [ assumption | constructor; assumption
        | constructor;
          [ proj_simpl; try solve [sockets_ok]
          | try solve [current_goal]
          | proj_simpl; try assumption;
            first [apply stripDisallowed_chars | apply username_chars_empty]
          | proj_simpl; try assumption;
            first [apply trim_chars; assumption | apply username_chars_empty]
          | try solve [timers_goal] ] ].


Ltac handler_inv :=
  let Hs := fresh "Hs" in let Hc := fresh "Hc" in let Hi := fresh "Hi" in
  let Hu := fresh "Hu" in let Ht := fresh "Ht" in
  intros [Hs Hc Hi Hu Ht]; apply wp_exec; wp_run; inv_leaf.

Lemma Inv_sendMessage now st : Inv st -> Inv (exec (sendMessage now) st).
Proof. handler_inv. Qed.

Lemma Inv_handleJoin st : Inv st -> Inv (exec handleJoin st).
Proof. handler_inv. Qed.

Lemma Inv_handleTyping st : Inv st -> Inv (exec handleTyping st).
Proof. handler_inv. Qed.

Lemma Inv_roomItem_click room st : Inv st -> Inv (exec (roomItem_click room) st).
Proof. handler_inv. Qed.

Lemma Inv_handleLeave confirmed st : Inv st -> Inv (exec (handleLeave confirmed) st).
Proof. handler_inv. Qed.

Lemma Inv_socket_onmessage now data st :
  Inv st -> Inv (exec (socket_onmessage now data) st).
Proof. handler_inv. Qed.

Lemma Inv_socket_onerror st : Inv st -> Inv (exec socket_onerror st).
Proof. handler_inv. Qed.

Lemma Inv_socket_onclose st : Inv st -> Inv (exec socket_onclose st).
Proof. handler_inv. Qed.

Lemma Inv_roomModal st :
  Inv st -> Inv (exec openRoomModal st) /\ Inv (exec closeRoomModal st).
Proof. split; revert H; handler_inv. Qed.

Lemma Inv_run_callback cb st : Inv st -> Inv (exec (run_callback cb) st).
Proof. destruct cb; handler_inv. Qed.

Lemma Inv_oninput st :
  Inv st -> Inv (exec messageInput_oninput st).
Proof. handler_inv. Qed.

Lemma Inv_username_oninput v st :
  Inv st ->
  Inv (exec usernameInput_oninput
         (set_loginScreen (set_usernameInput_value v (loginScreen st)) st)).
Proof. handler_inv. Qed.

Lemma Inv_set_chatScreen c st : Inv st -> Inv (set_chatScreen c st).
Proof. intros [Hs Hc Hi Hu Ht]. inv_leaf. Qed.

Lemma Inv_set_roomSelect v st :
  Inv st -> Inv (set_loginScreen (set_roomSelect_value v (loginScreen st)) st).
Proof. intros [Hs Hc Hi Hu Ht]. inv_leaf. Qed.

Lemma Inv_set_clock c st : Inv st -> Inv (set_clock c st).
Proof. intros [Hs Hc Hi Hu Ht]. inv_leaf. Qed.

Lemma Inv_cancel handle st :
  Inv st -> Inv (set_timers (alter cancel handle (timers st)) st).
Proof. intros [Hs Hc Hi Hu Ht]. inv_leaf. Qed.

Lemma Inv_closed ref st :
  Inv st -> Inv (set_sockets (alter (set_readyState CLOSED) ref (sockets st)) st).
Proof. intros [Hs Hc Hi Hu Ht]. inv_leaf. Qed.

Lemma Inv_socket_open ref st :
  Inv st -> readyState_at ref st = Some CONNECTING ->
  Inv (exec socket_onopen
         (set_sockets (alter (set_readyState OPEN) ref (sockets st)) st)).
Proof.
  intros [Hs Hc Hi Hu Ht] Hready. apply wp_exec; wp_run.
  all: inv_leaf.
Qed.

Transparent lit trim collapseSpaces stripDisallowed getCurrentTime roomConfig_name String_of_nat truthy charAt0.

(** Every event the browser delivers preserves the invariant. *)
Lemma Inv_step e st st' : Inv st -> step e st = Some st' -> Inv st'.
Proof.
  intros HI Hstep.
  destruct e; simpl in Hstep; unfold readyState_at in Hstep;
    repeat case_match; simplify_eq;
    eauto using Inv_username_oninput, Inv_handleJoin, Inv_set_roomSelect,
      Inv_handleTyping, Inv_oninput, Inv_set_chatScreen, Inv_sendMessage,
      Inv_roomItem_click, Inv_handleLeave, Inv_socket_open, Inv_socket_onmessage,
      Inv_socket_onerror, Inv_socket_onclose, Inv_closed, Inv_run_callback,
      Inv_cancel, Inv_set_clock.
  - apply Inv_roomModal; assumption.
  - apply Inv_roomModal; assumption.
Qed.

Lemma Inv_run events : forall st st', Inv st -> run events st = Some st' -> Inv st'.
Proof.
  induction events as [|e events IH]; simpl; intros st st' HI Hrun.
  - congruence.
  - destruct (step e st) as [st1|] eqn:Hstep; [|discriminate].
    eauto using Inv_step.
Qed.

Lemma Inv_Initial st : Initial st -> Inv st.
Proof.
  intros (Hs & Hu & _ & _ & Ht & Hss & Hts & Hin).
  split.
  - rewrite Hss. constructor.
  - apply current_ok_none. assumption.
  - exact Hin.
  - rewrite Hu. constructor.
  - unfold stop_timer_ok. rewrite Hts. intros handle t Hl. discriminate.
Qed.

Lemma Inv_reachable st : reachable st -> Inv st.
Proof.
  intros (st0 & events & Hinit & Hrun).
  eapply Inv_run; [apply Inv_Initial|]; eassumption.
Qed.

(** ** The join envelope *)

Ltac wp_start :=
  match goal with
  | |- context [exec ?m ?st] => pattern (exec m st); apply wp_exec
  end.

Ltac table_side :=
  rewrite ?length_insert, ?length_alter, ?length_app; simpl;
  first [ eapply lookup_lt_Some; eassumption | lia ].

Ltac sent_on_simpl :=
  unfold sent_on; proj_simpl;
  repeat first
    [ rewrite list_lookup_insert_eq by table_side
    | rewrite list_lookup_insert_ne by congruence
    | rewrite list_lookup_alter_eq
    | rewrite list_lookup_alter_ne by congruence
    | rewrite list_lookup_middle by (rewrite ?length_insert, ?length_alter; reflexivity)
    | match goal with
      | H : ?l !! ?i = _ |- context [?l !! ?i] => rewrite H
      end ];
  simpl.


Lemma Inv_sent_on st ref :
  Inv st ->
  socket_ok {| readyState := default CLOSED (readyState_at ref st);
               sent := sent_on ref st |}.
Proof.
  intros HI. unfold sent_on, readyState_at.
  destruct (sockets st !! ref) as [ws|] eqn:Hw; simpl.
  - pose proof (Forall_lookup_1 _ _ _ _ (inv_sockets st HI) Hw) as Hok.
    destruct ws; exact Hok.
  - split; simpl; auto.
Qed.

Lemma fresh_page_Initial : Initial fresh_page.
Proof. repeat split; constructor. Qed.

Lemma reachable_run events st :
  run events fresh_page = Some st -> reachable st.
Proof.
  intros Hrun. exists fresh_page, events.
  split; [apply fresh_page_Initial | exact Hrun].
Qed.

(** Ada types her name and clicks Join. *)
Definition Ada_joins : list Event :=
  [usernameInput_input (lit "Ada"); joinBtn_click].

Definition Ada_joining : State :=
  default fresh_page (run Ada_joins fresh_page).

(** ** Usernames *)

(** The characters the claim names: letters, digits, underscore and the
    space U+0020. *)
Definition alnum_underscore_space (c : N) : bool :=
  isAlnum c || isUnderscore c || (c =? 32)%N.

(** A username with a TAB in it: "a", U+0009, "b". *)
Definition tabbed_username : jsstring := [97; 9; 98]%N.

(** C3, as stated, fails on the character class: the input listener
    deletes what is outside [a-zA-Z0-9_\s], and [\s] is all white space,
    not only the space.  Pasting "a<TAB>b" into the username field and
    joining sends a join envelope whose username holds a TAB. *)
Lemma tab_in_username_counterexample :
  exists st,
    run [usernameInput_input tabbed_username; joinBtn_click; socket_open 0]
        fresh_page = Some st /\
    sent_on 0 st = [join_envelope tabbed_username (lit "general")] /\
    forallb alnum_underscore_space tabbed_username = false.
Proof.
  eexists. split; [vm_compute; reflexivity|].
  split; [vm_compute; reflexivity | reflexivity].
Qed.

Lemma handleJoin_rejects st :
  trim (usernameInput_value (loginScreen st)) = [] \/
  20 < length (trim (usernameInput_value (loginScreen st))) ->
  sockets (exec handleJoin st) = sockets st /\
  socket (exec handleJoin st) = socket st /\
  currentUsername (exec handleJoin st) = currentUsername st /\
  currentRoom (exec handleJoin st) = currentRoom st /\
  chatScreen (exec handleJoin st) = chatScreen st /\
  login_hidden (loginScreen (exec handleJoin st)) = login_hidden (loginScreen st).
Proof.
  intros Hbad. wp_start. wp_run; try (repeat split; reflexivity).
  all: exfalso; destruct Hbad as [Hempty | Hlong];
    [ rewrite Hempty in *; discriminate
    | apply Nat.ltb_ge in Heqb0; lia ].
Qed.

(** C3 (amended): a join whose trimmed username is empty or longer than 20
    code units is rejected: [handleJoin] opens no socket, keeps the global
    variables and leaves the chat view as it was; and in every reachable
    state the current username, and the username of every join envelope
    sent on any socket, holds only letters, digits, underscores and
    white-space characters (the class [\s]: the space, and also TAB,
    NO-BREAK SPACE and the other Unicode spaces). *)
Theorem username_validation :
  (forall st,
      trim (usernameInput_value (loginScreen st)) = [] \/
      20 < length (trim (usernameInput_value (loginScreen st))) ->
      step joinBtn_click st = Some (exec handleJoin st) /\
      sockets (exec handleJoin st) = sockets st /\
      socket (exec handleJoin st) = socket st /\
      currentUsername (exec handleJoin st) = currentUsername st /\
      currentRoom (exec handleJoin st) = currentRoom st /\
      chatScreen (exec handleJoin st) = chatScreen st /\
      login_hidden (loginScreen (exec handleJoin st)) = login_hidden (loginScreen st)) /\
  (forall st,
      reachable st ->
      username_chars (currentUsername st) /\
      forall ref e u,
        e ∈ sent_on ref st -> field "username" e = Some u ->
        Forall (fun c => isAlnum c || isUnderscore c || isWhiteSpace c = true) u).
Proof.
  split.
  - intros st Hbad. split; [reflexivity | apply handleJoin_rejects; exact Hbad].
  - intros st Hreach. pose proof (Inv_reachable st Hreach) as HI.
    split; [apply (inv_username st HI)|].
    intros ref e u He Hu.
    pose proof (ok_usernames _ (Inv_sent_on st ref HI)) as Hall. simpl in Hall.
    rewrite Forall_forall in Hall. exact (Hall e He u Hu).
Qed.

(** A name of 21 letters is typed. *)
Definition long_name_typed : State :=
  default fresh_page
    (run [usernameInput_input (lit "abcdefghijklmnopqrstu")] fresh_page).

Lemma username_validation_witness :
  (sockets (exec handleJoin long_name_typed) = [] /\
   socket (exec handleJoin long_name_typed) = None) /\
  (forall ref e u,
      e ∈ sent_on ref Ada_joining -> field "username" e = Some u ->
      Forall (fun c => isAlnum c || isUnderscore c || isWhiteSpace c = true) u).
Proof.
  split.
  - assert (Hlong : 20 < length (trim (usernameInput_value (loginScreen long_name_typed))))
      by (vm_compute; lia).
    pose proof (proj1 username_validation long_name_typed (or_intror Hlong)) as H.
    split; [exact (proj1 (proj2 H)) | exact (proj1 (proj2 (proj2 H)))].
  - exact (proj2 (proj2 username_validation Ada_joining
                    (reachable_run Ada_joins Ada_joining eq_refl))).
Defined.

(** ** Reconnecting *)






Lemma exec_messageInput_oninput st :
  exec messageInput_oninput st
  = set_chatScreen
      (set_messageInput_value (collapseSpaces (messageInput_value (chatScreen st)))
         (chatScreen st)) st.
Proof. reflexivity. Qed.

Lemma exec_usernameInput_oninput st :
  exec usernameInput_oninput st
  = set_loginScreen
      (set_usernameInput_value (stripDisallowed (usernameInput_value (loginScreen st)))
         (loginScreen st)) st.
Proof. reflexivity. Qed.

(** The cases of [step]: which handler runs, and from which state. *)
Ltac step_cases Hstep :=
  match type of Hstep with
  | step ?e _ = Some _ =>
      destruct e; simpl in Hstep; unfold readyState_at in Hstep;
      repeat case_match; simplify_eq;
      rewrite ?exec_messageInput_oninput, ?exec_usernameInput_oninput
  end.


Lemma timer_fire_not_pending handle st t :
  timers st !! handle = Some t -> pending t = false ->
  step (timer_fire handle) st = None.
Proof. intros Hl Hp. simpl. rewrite Hl, Hp. reflexivity. Qed.























(** Ada has joined and her socket is open. *)
Definition Ada_connects : list Event := Ada_joins ++ [socket_open 0].

Definition Ada_connected : State :=
  default fresh_page (run Ada_connects fresh_page).



(** The connection has dropped and the reconnect is still two seconds away. *)
Definition Ada_dropped : State :=
  default fresh_page (run (Ada_connects ++ [socket_close 0]) fresh_page).



(** ** The typing debounce *)

(** Ada typed "h"; half a second later the connection had dropped. *)
Definition Ada_typed_then_dropped : State :=
  default fresh_page
    (run (Ada_connects ++ [messageInput_input (lit "h"); socket_close 0; tick 500])
       fresh_page).

(** C5, as stated, fails while the socket is not open: [handleTyping]
    returns before it sends or arms anything.  With the connection
    dropped, an input event with a non-empty message and the flag unset
    sends no typing envelope and arms no timer; and an input event half a
    second after the previous one neither cancels the pending stop-typing
    timer nor arms a new one. *)
Lemma typing_while_disconnected_counterexample :
  (isTyping Ada_dropped = false /\
   exists st',
     step (messageInput_input (lit "hi")) Ada_dropped = Some st' /\
     trim (messageInput_value (chatScreen st')) = lit "hi" /\
     sockets st' = sockets Ada_dropped /\
     timers st' = timers Ada_dropped) /\
  (timers Ada_typed_then_dropped !! 1
   = Some {| due := 1000; callback := StopTyping; pending := true |} /\
   exists st',
     step (messageInput_input (lit "hi")) Ada_typed_then_dropped = Some st' /\
     timers st' = timers Ada_typed_then_dropped).
Proof.
  split; (split; [vm_compute; reflexivity|]); eexists;
    (split; [vm_compute; reflexivity|]); repeat split; vm_compute; reflexivity.
Qed.

Lemma stopTyping_callback_idle st :
  isTyping st = false -> exec stopTyping_callback st = st.
Proof. intros H. unfold exec, stopTyping_callback, mbind, M_bind, get. simpl. now rewrite H. Qed.

Lemma stopTyping_callback_sends st ref :
  isTyping st = true -> socket st = Some ref ->
  isTyping (exec stopTyping_callback st) = false /\
  sent_on ref (exec stopTyping_callback st)
  = sent_on ref st
      ++ (if ws_is_open ref st then [stop_typing_envelope]
          else []).
Proof.
  intros Hflag Hs. wp_start. wp_run; norm_hyps.
  all: split; [reflexivity|]; unfold ws_is_open; sent_on_simpl.
  all: try (destruct w as [r log]; simpl in *; subst); simpl;
    rewrite ?app_nil_r; reflexivity.
Qed.

Lemma stopTyping_callback_clears st :
  isTyping (exec stopTyping_callback st) = false.
Proof. wp_start. wp_run; solve [reflexivity | assumption]. Qed.

Lemma socket_is_open_intro st ref :
  socket st = Some ref -> readyState_at ref st = Some OPEN ->
  socket_is_open st = true.
Proof.
  unfold socket_is_open, ws_is_open, readyState_at. intros -> Hr.
  apply fmap_Some in Hr as ([r log] & -> & Hr). simpl in Hr. now subst.
Qed.

Lemma socket_is_open_false st :
  (forall ref, socket st = Some ref -> readyState_at ref st <> Some OPEN) ->
  socket_is_open st = false.
Proof.
  intros Hno. destruct (socket_is_open st) eqn:Hopen; [|reflexivity].
  apply socket_is_open_true in Hopen as (ref & ws & Hs & Hw & Hr).
  exfalso. apply (Hno ref Hs). unfold readyState_at. rewrite Hw. simpl. congruence.
Qed.

(** [handleTyping] with no socket, or one that is not open: the button
    follows the field, and the handler returns. *)
Lemma handleTyping_returns_early st :
  socket_is_open st = false ->
  exec handleTyping st
  = set_chatScreen
      (set_sendBtn_disabled (negb (truthy (trim (messageInput_value (chatScreen st)))))
         (chatScreen st)) st.
Proof.
  intros Hclosed. wp_start. wp_run.
  all: change (socket_is_open _) with (socket_is_open st) in *.
  all: rewrite ?Hclosed in *; try discriminate.
  all: reflexivity.
Qed.

(** A pending stop-typing timer that is due fires: the callback of
    [handleTyping] runs. *)
Lemma stop_timer_fires st handle t :
  timers st !! handle = Some t -> callback t = StopTyping -> pending t = true ->
  (due t <= clock st)%N ->
  step (timer_fire handle) st
  = Some (exec stopTyping_callback (set_timers (alter cancel handle (timers st)) st)).
Proof.
  intros Hl Hcb Hp Hdue. simpl. rewrite Hl, Hp. simpl.
  apply N.leb_le in Hdue. rewrite Hdue, Hcb. reflexivity.
Qed.

Lemma stopTyping_callback_timers st : timers (exec stopTyping_callback st) = timers st.
Proof. wp_start. wp_run; reflexivity. Qed.

(** C5 (amended): while the socket is open, an input event sends a typing
    envelope exactly when the trimmed message is non-empty and the client
    is not yet marked typing; it cancels the stop-typing timer armed by the
    previous input event and arms a new one due 1000 ms later, which is
    then the only pending stop-typing timer.  With no socket, or one that
    is not open, the input event sets the send button and nothing else: no
    frame, no timer cancelled, none armed.  When the timer armed fires, a
    stop_typing envelope is handed to the socket exactly if the client is
    still marked typing, and the flag is cleared; if the client is no
    longer marked typing, nothing but the timer changes. *)
Theorem typing_debounce (st : State) (value : jsstring) (Hreach : reachable st) :
  let message := trim (collapseSpaces value) in
  let timer := {| due := (clock st + 1000)%N; callback := StopTyping; pending := true |} in
  let handle := length (timers st) in
  exists st',
    step (messageInput_input value) st = Some st' /\
    (forall ref,
        socket st = Some ref -> readyState_at ref st = Some OPEN ->
        sent_on ref st'
        = sent_on ref st
            ++ (if truthy message && negb (isTyping st) then [typing_envelope] else []) /\
        isTyping st' = isTyping st || truthy message /\
        timers st'
        = match typingTimeout st with
          | Some previous => alter cancel previous (timers st)
          | None => timers st
          end ++ [timer] /\
        typingTimeout st' = Some handle /\
        (forall h t,
            timers st' !! h = Some t -> callback t = StopTyping -> pending t = true ->
            h = handle /\ t = timer)) /\
    ((forall ref, socket st = Some ref -> readyState_at ref st <> Some OPEN) ->
     st' = set_chatScreen
             (set_sendBtn_disabled (negb (truthy message))
                (set_messageInput_value (collapseSpaces value) (chatScreen st))) st) /\
    (forall st2,
        timers st2 !! handle = Some timer -> (due timer <= clock st2)%N ->
        exists st3,
          step (timer_fire handle) st2 = Some st3 /\
          timers st3 = alter cancel handle (timers st2) /\
          isTyping st3 = false /\
          (forall ref2,
              socket st2 = Some ref2 ->
              sent_on ref2 st3
              = sent_on ref2 st2
                  ++ (if isTyping st2 && ws_is_open ref2 st2 then [stop_typing_envelope]
                      else [])) /\
          (isTyping st2 = false ->
           st3 = set_timers (alter cancel handle (timers st2)) st2)).
Proof.
  intros message timer handle.
  set (st0 := set_chatScreen
                (set_messageInput_value (collapseSpaces value) (chatScreen st)) st).
  assert (Hstep : step (messageInput_input value) st = Some (exec handleTyping st0))
    by reflexivity.
  pose proof (Inv_step _ _ _ (Inv_reachable st Hreach) Hstep) as HI'.
  exists (exec handleTyping st0). split; [exact Hstep|]. split; [|split].
  - intros ref Hsock Hopen.
    pose proof (socket_is_open_intro st ref Hsock Hopen) as Hso.
    assert (Hmain :
      sent_on ref (exec handleTyping st0)
      = sent_on ref st
          ++ (if truthy message && negb (isTyping st) then [typing_envelope] else []) /\
      isTyping (exec handleTyping st0) = isTyping st || truthy message /\
      timers (exec handleTyping st0)
      = match typingTimeout st with
        | Some previous => alter cancel previous (timers st)
        | None => timers st
        end ++ [timer] /\
      typingTimeout (exec handleTyping st0) = Some handle).
    { subst message timer handle st0. wp_start. wp_run.
      all: change (socket_is_open _) with (socket_is_open st) in *.
      all: rewrite Hso in *; try discriminate.
      all: norm_hyps; try congruence.
      all: rewrite ?length_alter; sent_on_simpl.
      all: repeat match goal with
           | H : _ && _ = _ |- _ => rewrite H
           end.
      all: rewrite ?app_nil_r; repeat split; try reflexivity.
      all: destruct (isTyping st); destruct (truthy (trim (collapseSpaces value)));
        simpl in *; congruence. }
    destruct Hmain as (Hsent & Hflag & Htimers & Hheld).
    split; [exact Hsent|]. split; [exact Hflag|]. split; [exact Htimers|].
    split; [exact Hheld|].
    intros h t Hl Hcb Hp.
    pose proof (inv_timers _ HI') as Hh. unfold stop_timer_ok in Hh.
    specialize (Hh h t Hl Hcb Hp).
    rewrite Hheld in Hh. injection Hh as <-. split; [reflexivity|].
    rewrite Htimers in Hl.
    rewrite list_lookup_middle in Hl by (destruct (typingTimeout st);
      rewrite ?length_alter; reflexivity).
    congruence.
  - intros Hclosed.
    rewrite handleTyping_returns_early by (apply socket_is_open_false; exact Hclosed).
    reflexivity.
  - intros st2 Hl Hdue.
    set (st2' := set_timers (alter cancel handle (timers st2)) st2).
    exists (exec stopTyping_callback st2').
    split; [exact (stop_timer_fires st2 handle timer Hl eq_refl eq_refl Hdue)|].
    split; [apply stopTyping_callback_timers|].
    split; [apply stopTyping_callback_clears|]. split.
    + intros ref2 Hs2. destruct (isTyping st2) eqn:Hflag2.
      * exact (proj2 (stopTyping_callback_sends st2' ref2 Hflag2 Hs2)).
      * rewrite (stopTyping_callback_idle st2' Hflag2). simpl.
        symmetry. apply app_nil_r.
    + intros Hflag2. exact (stopTyping_callback_idle st2' Hflag2).
Qed.

(** Ada has typed "hi" into the message box. *)
Definition Ada_writes_hi : list Event :=
  Ada_connects ++ [messageInput_input (lit "hi")].

Definition Ada_wrote_hi : State :=
  default fresh_page (run Ada_writes_hi fresh_page).

(** A second later she has typed nothing more. *)
Definition Ada_paused : State :=
  default fresh_page (run (Ada_writes_hi ++ [tick 1000]) fresh_page).

Lemma typing_debounce_witness :
  (exists st',
      step (messageInput_input (lit "hi")) Ada_connected = Some st' /\
      sent_on 0 st' = sent_on 0 Ada_connected ++ [typing_envelope] /\
      timers st'
      = timers Ada_connected
          ++ [{| due := 1000; callback := StopTyping; pending := true |}]) /\
  (exists st3,
      step (timer_fire 1) Ada_paused = Some st3 /\
      isTyping st3 = false /\
      sent_on 0 st3 = sent_on 0 Ada_paused ++ [stop_typing_envelope]).
Proof.
  assert (Hreach : reachable Ada_connected)
    by (apply (reachable_run Ada_connects); vm_compute; reflexivity).
  assert (Hidle : typingTimeout Ada_connected = None) by (vm_compute; reflexivity).
  assert (Hclock : clock Ada_connected = 0%N) by (vm_compute; reflexivity).
  assert (Hlen : length (timers Ada_connected) = 1) by (vm_compute; reflexivity).
  assert (Harmed : timers Ada_paused !! 1
                   = Some {| due := 1000; callback := StopTyping; pending := true |})
    by (vm_compute; reflexivity).
  assert (Hdue : (1000 <= clock Ada_paused)%N) by (vm_compute; discriminate).
  assert (Hsock : socket Ada_paused = Some 0) by (vm_compute; reflexivity).
  assert (Hflag : isTyping Ada_paused = true) by (vm_compute; reflexivity).
  assert (Hopen : ws_is_open 0 Ada_paused = true) by (vm_compute; reflexivity).
  destruct (typing_debounce Ada_connected (lit "hi") Hreach)
    as (st' & Hstep & Hsends & _ & Hfires).
  rewrite Hclock, Hlen in Hfires.
  destruct (Hsends 0 eq_refl eq_refl) as (Hsent & _ & Htimers & _).
  rewrite Hidle, Hclock in Htimers.
  destruct (Hfires Ada_paused Harmed Hdue) as (st3 & Hfire & _ & Hcleared & Hstop & _).
  specialize (Hstop 0 Hsock). rewrite Hflag, Hopen in Hstop.
  split.
  - exists st'. split; [exact Hstep|]. split; [exact Hsent | exact Htimers].
  - exists st3. split; [exact Hfire|]. split; [exact Hcleared | exact Hstop].
Defined.

(** ** Switching rooms *)

(** What [close()] leaves of a socket's state. *)
Definition closed_by_script (r : ReadyState) : ReadyState :=
  match r with
  | CONNECTING | OPEN => CLOSING
  | CLOSING | CLOSED => r
  end.

Lemma roomConfig_name_own room config :
  roomConfig_get room = Some config -> roomConfig_name room = Some (name config).
Proof. unfold roomConfig_name. now intros ->. Qed.






(** ** Typing and stop_typing frames *)

(** The log of a socket in a table of sockets. *)
Definition log (ref : nat) (table : list WebSocket) : list Envelope :=
  default [] (sent <$> table !! ref).

Lemma sent_on_log ref st : sent_on ref st = log ref (sockets st).
Proof. reflexivity. Qed.

Lemma log_set_readyState r i table ref :
  log ref (alter (set_readyState r) i table) = log ref table.
Proof.
  unfold log. destruct (decide (i = ref)) as [->|Hne].
  - rewrite list_lookup_alter_eq. now destruct (table !! ref).
  - now rewrite list_lookup_alter_ne.
Qed.

Lemma log_insert table n ws ref :
  n < length table ->
  log ref (<[n := ws]> table) = if decide (ref = n) then sent ws else log ref table.
Proof.
  intros Hn. unfold log. case_decide as Hd.
  - subst. now rewrite list_lookup_insert_eq.
  - now rewrite list_lookup_insert_ne by congruence.
Qed.

Lemma log_new table ref :
  log ref (table ++ [{| readyState := CONNECTING; sent := [] |}]) = log ref table.
Proof.
  unfold log. destruct (decide (ref < length table)) as [Hlt|Hge].
  - now rewrite lookup_app_l.
  - rewrite lookup_app_r by lia. rewrite (lookup_ge_None_2 table) by lia.
    now destruct (ref - length table) as [|[]].
Qed.

Lemma log_lookup table n ws : table !! n = Some ws -> log n table = sent ws.
Proof. unfold log. now intros ->. Qed.

(** What one event adds to a socket's log, and how the flag moves with it. *)
Definition sends (st st' : State) : Prop :=
  forall ref,
    exists new,
      sent_on ref st' = sent_on ref st ++ new /\
      (typing_envelope ∈ new -> isTyping st = false /\ isTyping st' = true) /\
      (stop_typing_envelope ∈ new -> isTyping st = true /\ isTyping st' = false).

Ltac log_simpl :=
  rewrite !sent_on_log; proj_simpl;
  repeat first
    [ rewrite log_set_readyState
    | rewrite log_new
    | rewrite log_insert by table_side ];
  repeat case_decide; try congruence; subst;
  repeat match goal with
  | H : ?t !! ?n = Some ?ws |- context [log ?n ?t] => rewrite (log_lookup t n ws H)
  end;
  proj_simpl; rewrite <- ?app_assoc.

Ltac member_cases H :=
  repeat (apply elem_of_cons in H as [H|H]);
  try (apply elem_of_nil in H; contradiction);
  try discriminate H.

Ltac sends_leaf :=
  let ref := fresh "ref" in
  intros ref; norm_hyps;
  first
    [ congruence
    | try match goal with
          | H : socket _ = Some ?n |- _ => destruct (decide (ref = n)); [subst ref|]
          end;
      (eexists; split;
       [ log_simpl; first [ reflexivity | symmetry; apply app_nil_r ]
       | split; let H := fresh "Hin" in
         intros H; simpl in H; member_cases H; proj_simpl; split; congruence ]) ].

Lemma step_sends e st st' : step e st = Some st' -> sends st st'.
Proof.
  intros Hstep. step_cases Hstep.
  all: try (wp_start; wp_run).
  all: try solve [sends_leaf].
Qed.

(** Ada types "h" in the general room, switches to the tech room within
    the second, the new socket opens, and the idle timer armed by her
    keystroke fires. *)
Definition Ada_switches_while_typing : list Event :=
  Ada_connects
    ++ [messageInput_input (lit "h"); roomItem_clicked (lit "tech"); socket_close 0;
        tick 300; socket_open 1; tick 700; timer_fire 1].

(** C9, as stated, fails across a change of connection: [isTyping] is one
    flag for the whole client.  The typing envelope goes to the old
    socket, the stop_typing envelope to the new one, on which no typing
    envelope was ever sent. *)
Lemma stop_typing_without_typing_counterexample :
  exists st,
    run Ada_switches_while_typing fresh_page = Some st /\
    sent_on 0 st = [join_envelope (lit "Ada") (lit "general"); typing_envelope] /\
    sent_on 1 st = [join_envelope (lit "Ada") (lit "tech"); stop_typing_envelope].
Proof.
  eexists. split; [vm_compute; reflexivity|].
  split; vm_compute; reflexivity.
Qed.

(** C9 (amended): on every connection the typing and stop_typing frames
    alternate, never two of a kind in a row, but the first of them may be
    a stop_typing (it answers a typing sent on the previous connection,
    the flag being the client's, not the connection's); and every event
    that sends a typing frame finds the flag unset and sets it, every
    event that sends a stop_typing frame finds it set and clears it. *)
Theorem typing_frames_alternate (st : State) (Hreach : reachable st) :
  (forall ref, alternating (typing_kinds (sent_on ref st))) /\
  (forall e st' ref,
      step e st = Some st' ->
      exists new,
        sent_on ref st' = sent_on ref st ++ new /\
        (typing_envelope ∈ new -> isTyping st = false /\ isTyping st' = true) /\
        (stop_typing_envelope ∈ new -> isTyping st = true /\ isTyping st' = false)).
Proof.
  split.
  - intros ref.
    exact (ok_alternating _ (Inv_sent_on st ref (Inv_reachable st Hreach))).
  - intros e st' ref Hstep. exact (step_sends e st st' Hstep ref).
Qed.

(** Ada types "h" and stays idle for a second. *)
Definition Ada_types_and_idles : list Event :=
  Ada_connects ++ [messageInput_input (lit "h"); tick 1000; timer_fire 1].

Definition Ada_idle : State :=
  default fresh_page (run Ada_types_and_idles fresh_page).

Lemma typing_frames_alternate_witness :
  typing_kinds (sent_on 0 Ada_idle) = [KTyping; KStop] /\
  alternating (typing_kinds (sent_on 0 Ada_idle)).
Proof.
  assert (Hreach : reachable Ada_idle)
    by (apply (reachable_run Ada_types_and_idles); vm_compute; reflexivity).
  split; [vm_compute; reflexivity|].
  exact (proj1 (typing_frames_alternate Ada_idle Hreach) 0).
Defined.

(** ** The sender's own message *)

(** The element [addChatMessage] builds for a message of the user's own. *)
Definition own_message (st : State) (time message : jsstring) : MessageNode :=
  ChatMessage (lit "message own") (charAt0 (currentUsername st)) (lit "You")
    time message.

(** [timestamp || getCurrentTime()] *)
Definition timestamp_or_now (timestamp : option jsstring) (now : Date) : jsstring :=
  match timestamp with
  | Some t => if truthy t then t else getCurrentTime now
  | None => getCurrentTime now
  end.

Lemma className_own : lit "message " ++ lit "own" = lit "message own".
Proof. reflexivity. Qed.

Opaque lit trim getCurrentTime truthy charAt0.

Lemma sendMessage_effect st now ref :
  socket st = Some ref -> readyState_at ref st = Some OPEN ->
  trim (messageInput_value (chatScreen st)) <> [] ->
  let message := trim (messageInput_value (chatScreen st)) in
  let st1 := exec (sendMessage now) st in
  sent_on ref st1
  = sent_on ref st
      ++ chat_envelope message
         :: (if isTyping st then [stop_typing_envelope] else []) /\
  messagesList (chatScreen st1)
  = messagesList (chatScreen st) ++ [own_message st (getCurrentTime now) message] /\
  currentUsername st1 = currentUsername st /\
  readyState_at ref st1 = Some OPEN.
Proof.
  intros Hsock Hopen Hmsg. cbv zeta.
  pose proof (socket_is_open_intro st ref Hsock Hopen) as Hso.
  assert (Htruthy : truthy (trim (messageInput_value (chatScreen st))) = true)
    by (destruct (trim (messageInput_value (chatScreen st))); [contradiction | reflexivity]).
  wp_start. wp_run.
  all: rewrite ?Hso, ?Htruthy in *; try discriminate.
  all: norm_hyps; try congruence.
  all: repeat split.
  all: try (sent_on_simpl; rewrite ?Heqb0, <- ?app_assoc; reflexivity).
  all: try (unfold readyState_at; sent_on_simpl; congruence).
  all: try (proj_simpl; unfold own_message;
            rewrite bool_decide_eq_true_2 by reflexivity; rewrite className_own;
            destruct (truthy (getCurrentTime now)); reflexivity).
Qed.

Lemma handleMessage_own_chat st later message timestamp :
  messagesList
    (chatScreen (exec (handleMessage later (chat (currentUsername st) message timestamp)) st))
  = messagesList (chatScreen st)
      ++ [own_message st (timestamp_or_now timestamp later) message].
Proof.
  wp_start. wp_run. proj_simpl. unfold own_message, timestamp_or_now.
  rewrite bool_decide_eq_true_2 by reflexivity. rewrite className_own. reflexivity.
Qed.

Transparent lit trim getCurrentTime truthy charAt0.

(** C10: a successful [sendMessage] (non-empty trimmed message, open
    socket) sends the chat envelope and at once appends the message to
    the local list, before any frame from the server; when the server's
    chat broadcast of that message (same username, same text) arrives,
    [handleMessage] appends it again: the list then ends with the message
    twice, both rendered as the user's own. *)
Theorem own_message_rendered_twice (st : State) (now later : Date) (ref : nat)
    (timestamp : option jsstring)
    (Hsock : socket st = Some ref) (Hopen : readyState_at ref st = Some OPEN)
    (Hmsg : trim (messageInput_value (chatScreen st)) <> []) :
  let message := trim (messageInput_value (chatScreen st)) in
  exists st1 st2,
    step (sendBtn_click now) st = Some st1 /\
    sent_on ref st1
    = sent_on ref st
        ++ chat_envelope message
           :: (if isTyping st then [stop_typing_envelope] else []) /\
    messagesList (chatScreen st1)
    = messagesList (chatScreen st) ++ [own_message st (getCurrentTime now) message] /\
    step (socket_message ref later
            (Some (chat (currentUsername st) message timestamp))) st1 = Some st2 /\
    messagesList (chatScreen st2)
    = messagesList (chatScreen st)
        ++ [own_message st (getCurrentTime now) message;
            own_message st (timestamp_or_now timestamp later) message].
Proof.
  intros message.
  destruct (sendMessage_effect st now ref Hsock Hopen Hmsg)
    as (Hsent & Hlist & Huser & Hopen1).
  fold message in Hsent, Hlist.
  exists (exec (sendMessage now) st).
  exists (exec (handleMessage later (chat (currentUsername st) message timestamp))
            (exec (sendMessage now) st)).
  split; [reflexivity|]. split; [exact Hsent|]. split; [exact Hlist|]. split.
  - simpl. rewrite Hopen1. reflexivity.
  - rewrite <- Huser at 1. rewrite handleMessage_own_chat, Hlist.
    rewrite <- app_assoc. simpl. unfold own_message. rewrite Huser. reflexivity.
Qed.

Definition noon : Date := {| timeValue := 43200000; localTZA := 0 |}.

Lemma own_message_rendered_twice_witness :
  exists st1 st2,
    step (sendBtn_click noon) Ada_wrote_hi = Some st1 /\
    step (socket_message 0 noon (Some (chat (lit "Ada") (lit "hi") (Some (lit "12:00")))))
         st1 = Some st2 /\
    messagesList (chatScreen st2)
    = [ChatMessage (lit "message own") (lit "A") (lit "You") (lit "12:00") (lit "hi");
       ChatMessage (lit "message own") (lit "A") (lit "You") (lit "12:00") (lit "hi")].
Proof.
  assert (Hmsg : trim (messageInput_value (chatScreen Ada_wrote_hi)) <> [])
    by (vm_compute; discriminate).
  destruct (own_message_rendered_twice Ada_wrote_hi noon noon 0 (Some (lit "12:00"))
              eq_refl eq_refl Hmsg)
    as (st1 & st2 & Hsend & _ & _ & Hrecv & Hlist).
  exists st1, st2. split; [exact Hsend|]. split; [exact Hrecv|].
  vm_compute in Hlist. vm_compute. exact Hlist.
Defined.

(** ** Broadcast and rooms *)

Module ServerProofs.
Import Server.

(** The two maps of the registry agree, and ids are handed out once. *)
Record wf (reg : Registry) : Prop := {
  wf_member : forall id c,
    connections reg !! id = Some c -> id ∈ membersOf (conn_room c) reg;
  wf_connection : forall room id,
    id ∈ membersOf room reg ->
    exists c, connections reg !! id = Some c /\ conn_room c = room;
  wf_fresh : forall id c, connections reg !! id = Some c -> id < next_id reg
}.

Lemma wf_startup : wf startup.
Proof.
  split.
  - intros id c H. simpl in H. rewrite lookup_empty in H. discriminate.
  - intros room id H. unfold membersOf, startup in H. simpl in H.
    exfalso. revert H.
    repeat (rewrite lookup_insert; case_decide; [simpl; set_solver|]).
    rewrite lookup_empty. simpl. set_solver.
  - intros id c H. simpl in H. rewrite lookup_empty in H. discriminate.
Qed.

Lemma membersOf_admit reg sock username room now id reg' room' :
  admit_connection sock username room now reg = inr (id, reg') ->
  membersOf room' reg'
  = if decide (room = room') then membersOf room reg ∪ {[id]} else membersOf room' reg.
Proof.
  unfold admit_connection. destruct (negb (valid_username username)); [discriminate|].
  destruct (rooms reg !! room) as [members|] eqn:Hroom; [|discriminate].
  intros [= <- <-]. unfold membersOf. simpl.
  rewrite lookup_insert. case_decide; [|reflexivity].
  subst. rewrite Hroom. reflexivity.
Qed.

Lemma wf_admit reg sock username room now id reg' :
  wf reg -> admit_connection sock username room now reg = inr (id, reg') -> wf reg'.
Proof.
  intros [Hm Hc Hf] Hadmit.
  assert (Hmem := fun room' => membersOf_admit _ _ _ _ _ _ _ room' Hadmit).
  unfold admit_connection in Hadmit.
  destruct (negb (valid_username username)); [discriminate|].
  destruct (rooms reg !! room) as [members|] eqn:Hroom; [|discriminate].
  injection Hadmit as <- <-.
  split.
  - intros id c Hl. rewrite Hmem. simpl in Hl.
    rewrite lookup_insert in Hl. case_decide as Hid.
    + injection Hl as <-. simpl. subst id. rewrite decide_True by reflexivity. set_solver.
    + specialize (Hm id c Hl). case_decide; [subst|]; set_solver.
  - intros room' id Hin. rewrite Hmem in Hin. simpl.
    rewrite lookup_insert. case_decide as Hroom'.
    + apply elem_of_union in Hin as [Hin | Hin].
      * destruct (Hc _ _ Hin) as (c & Hl & Hr). pose proof (Hf _ _ Hl).
        rewrite decide_False by lia. subst. eauto.
      * apply elem_of_singleton in Hin. subst id.
        rewrite decide_True by reflexivity. subst. eauto.
    + destruct (Hc _ _ Hin) as (c & Hl & Hr). pose proof (Hf _ _ Hl).
      rewrite decide_False by lia. eauto.
  - intros id c Hl. simpl in *. rewrite lookup_insert in Hl. case_decide.
    + lia.
    + pose proof (Hf _ _ Hl). lia.
Qed.

Lemma membersOf_remove reg id c room :
  connections reg !! id = Some c ->
  membersOf room (remove id reg)
  = if decide (conn_room c = room) then membersOf room reg ∖ {[id]}
    else membersOf room reg.
Proof.
  intros Hl. unfold remove, membersOf. rewrite Hl. simpl.
  rewrite lookup_alter. case_decide as Hd; [|reflexivity].
  subst. destruct (rooms reg !! conn_room c); simpl; [reflexivity | set_solver].
Qed.

Lemma wf_remove reg id : wf reg -> wf (remove id reg).
Proof.
  intros Hwf. destruct (connections reg !! id) as [c|] eqn:Hl.
  2: { unfold remove. rewrite Hl. exact Hwf. }
  destruct Hwf as [Hm Hc Hf].
  assert (Hconn : connections (remove id reg) = delete id (connections reg))
    by (unfold remove; now rewrite Hl).
  assert (Hnext : next_id (remove id reg) = next_id reg)
    by (unfold remove; now rewrite Hl).
  split.
  - intros id' c' Hl'. rewrite Hconn in Hl'.
    apply lookup_delete_Some in Hl' as [Hne Hl'].
    rewrite (membersOf_remove reg id c _ Hl). specialize (Hm _ _ Hl').
    case_decide; set_solver.
  - intros room id' Hin. rewrite (membersOf_remove reg id c _ Hl) in Hin.
    rewrite Hconn. case_decide as Hd.
    + apply elem_of_difference in Hin as [Hin Hne].
      destruct (Hc _ _ Hin) as (c' & Hl' & Hr). exists c'. split; [|exact Hr].
      apply lookup_delete_Some. split; [set_solver | exact Hl'].
    + destruct (Hc _ _ Hin) as (c' & Hl' & Hr). exists c'. split; [|exact Hr].
      apply lookup_delete_Some. split; [|exact Hl'].
      intros ->. congruence.
  - intros id' c' Hl'. rewrite Hconn in Hl'. rewrite Hnext.
    apply lookup_delete_Some in Hl' as [_ Hl']. eauto.
Qed.

Lemma broadcast_lookup room envelope excludeId reg id :
  connections (fst (broadcast room envelope excludeId reg)) !! id
  = (fun c => if bool_decide (id ∈ recipients room excludeId reg)
              then write envelope c else c) <$> connections reg !! id.
Proof.
  unfold broadcast. simpl. rewrite map_lookup_imap.
  destruct (connections reg !! id); reflexivity.
Qed.

Lemma conn_room_write envelope c : conn_room (write envelope c) = conn_room c.
Proof. unfold write. destruct (writable (conn_socket c)); reflexivity. Qed.

Lemma wf_broadcast room envelope excludeId reg :
  wf reg -> wf (fst (broadcast room envelope excludeId reg)).
Proof.
  intros [Hm Hc Hf].
  assert (Hrooms : forall room',
             membersOf room' (fst (broadcast room envelope excludeId reg))
             = membersOf room' reg) by reflexivity.
  split.
  - intros id c Hl. rewrite broadcast_lookup in Hl.
    apply fmap_Some in Hl as (c0 & Hl & ->). rewrite Hrooms.
    case_bool_decide; rewrite ?conn_room_write; eauto.
  - intros room' id Hin. rewrite Hrooms in Hin.
    destruct (Hc _ _ Hin) as (c & Hl & Hr).
    rewrite broadcast_lookup, Hl. simpl. eexists. split; [reflexivity|].
    case_bool_decide; rewrite ?conn_room_write; exact Hr.
  - intros id c Hl. rewrite broadcast_lookup in Hl.
    apply fmap_Some in Hl as (c0 & Hl & _). exact (Hf _ _ Hl).
Qed.

Lemma Reachable_wf reg : Reachable reg -> wf reg.
Proof.
  induction 1; eauto using wf_startup, wf_admit, wf_remove, wf_broadcast.
Qed.

(** A connection belongs to one room only. *)
Lemma one_room reg id room room' :
  wf reg -> id ∈ membersOf room reg -> id ∈ membersOf room' reg -> room = room'.
Proof.
  intros Hwf H1 H2.
  destruct (wf_connection reg Hwf _ _ H1) as (c & Hl & <-).
  destruct (wf_connection reg Hwf _ _ H2) as (c' & Hl' & <-).
  congruence.
Qed.

Lemma observed_broadcast room envelope reg id c :
  connections reg !! id = Some c ->
  observed id (fst (broadcast room envelope None reg))
  = observed id reg
      ++ (if bool_decide (id ∈ membersOf room reg) && writable (conn_socket c)
          then [envelope] else []).
Proof.
  intros Hl. unfold observed. rewrite broadcast_lookup, Hl. simpl.
  case_bool_decide; simpl; [|now rewrite app_nil_r].
  unfold write. destruct (writable (conn_socket c)); simpl; [reflexivity|].
  now rewrite app_nil_r.
Qed.

(** C1: when a connection sends a chat message, the chat envelope is
    written to every member of the sender's room, the sender included
    (a member whose socket fails the write excepted), and to no connection
    outside that room: a member of any other room observes nothing. *)
Theorem broadcast_room_isolation (reg : Registry) (sender : nat) (c : Connection)
    (message timestamp : jsstring)
    (Hreach : Reachable reg) (Hsender : connections reg !! sender = Some c) :
  let room := conn_room c in
  let envelope := chat (conn_username c) message (Some timestamp) in
  let reg' := fst (on_chat_envelope sender message timestamp reg) in
  sender ∈ membersOf room reg /\
  (forall id ci,
      id ∈ membersOf room reg -> connections reg !! id = Some ci ->
      writable (conn_socket ci) = true ->
      observed id reg' = observed id reg ++ [envelope]) /\
  (forall id, id ∉ membersOf room reg -> observed id reg' = observed id reg) /\
  (forall other id,
      other <> room -> id ∈ membersOf other reg ->
      observed id reg' = observed id reg) /\
  (forall other, membersOf other reg' = membersOf other reg).
Proof.
  intros room envelope reg'. pose proof (Reachable_wf reg Hreach) as Hwf.
  assert (Hreg' : reg' = fst (broadcast room envelope None reg))
    by (unfold reg', on_chat_envelope; now rewrite Hsender).
  assert (Hout : forall id, id ∉ membersOf room reg ->
                            observed id reg' = observed id reg).
  { intros id Hnot. rewrite Hreg'.
    destruct (connections reg !! id) as [ci|] eqn:Hl.
    - rewrite (observed_broadcast _ _ _ _ ci Hl).
      rewrite bool_decide_eq_false_2 by exact Hnot. simpl. apply app_nil_r.
    - unfold observed. rewrite broadcast_lookup, Hl. reflexivity. }
  split; [exact (wf_member reg Hwf sender c Hsender)|].
  split.
  { intros id ci Hin Hl Hw. rewrite Hreg', (observed_broadcast _ _ _ _ ci Hl).
    rewrite bool_decide_eq_true_2 by exact Hin. rewrite Hw. reflexivity. }
  split; [exact Hout|]. split.
  - intros other id Hother Hin. apply Hout. intros Hin'.
    apply Hother. eapply one_room; eassumption.
  - intros other. rewrite Hreg'. reflexivity.
Qed.

(** Five connections, three in the general room and two in the tech room. *)
Definition healthy : Socket := {| written := []; writable := true |}.

Definition joins : list (jsstring * jsstring) :=
  [ (lit "Ada", lit "general"); (lit "Bob", lit "tech"); (lit "Cy", lit "general");
    (lit "Di", lit "tech"); (lit "Eve", lit "general") ].

Definition admit_all (reg : Registry) (l : list (jsstring * jsstring)) : Registry :=
  foldl (fun reg ur =>
           match admit_connection healthy ur.1 ur.2 0%N reg with
           | inr (_, reg') => reg'
           | inl _ => reg
           end) reg l.

Definition five : Registry := admit_all startup joins.

Lemma Reachable_admit_all l : forall reg, Reachable reg -> Reachable (admit_all reg l).
Proof.
  induction l as [|[u r] l IH]; intros reg Hreg; simpl; [exact Hreg|].
  apply IH. destruct (admit_connection healthy u r 0%N reg) as [|[id reg']] eqn:Hadmit;
    [exact Hreg | eapply Reachable_admit; eassumption].
Qed.

Lemma broadcast_room_isolation_witness :
  let reg' := fst (on_chat_envelope 0 (lit "hi") (lit "12:00") five) in
  let envelope := chat (lit "Ada") (lit "hi") (Some (lit "12:00")) in
  (observed 0 reg' = [envelope] /\ observed 2 reg' = [envelope] /\
   observed 4 reg' = [envelope]) /\
  (observed 1 reg' = [] /\ observed 3 reg' = []).
Proof.
  assert (Hreach : Reachable five)
    by (apply Reachable_admit_all, Reachable_startup).
  assert (Hsender : connections five !! 0
                    = Some {| conn_socket := healthy; conn_username := lit "Ada";
                              conn_room := lit "general"; joinedAt := 0 |})
    by (vm_compute; reflexivity).
  destruct (broadcast_room_isolation five 0 _ (lit "hi") (lit "12:00") Hreach Hsender)
    as (_ & Hin & _ & Hother & _).
  assert (Hgeneral : forall id, id = 0 \/ id = 2 \/ id = 4 ->
                                id ∈ membersOf (lit "general") five)
    by (intros id [-> | [-> | ->]]; apply (bool_decide_unpack _); vm_compute; exact I).
  assert (Htech : forall id, id = 1 \/ id = 3 -> id ∈ membersOf (lit "tech") five)
    by (intros id [-> | ->]; apply (bool_decide_unpack _); vm_compute; exact I).
  assert (Hne : lit "tech" <> lit "general") by (vm_compute; discriminate).
  cbv zeta. split; [split; [|split]|split].
  - exact (Hin 0 _ (Hgeneral 0 ltac:(tauto)) Hsender eq_refl).
  - refine (Hin 2 {| conn_socket := healthy; conn_username := lit "Cy";
                     conn_room := lit "general"; joinedAt := 0 |}
              (Hgeneral 2 ltac:(tauto)) _ eq_refl).
    vm_compute; reflexivity.
  - refine (Hin 4 {| conn_socket := healthy; conn_username := lit "Eve";
                     conn_room := lit "general"; joinedAt := 0 |}
              (Hgeneral 4 ltac:(tauto)) _ eq_refl).
    vm_compute; reflexivity.
  - exact (Hother (lit "tech") 1 Hne (Htech 1 ltac:(tauto))).
  - exact (Hother (lit "tech") 3 Hne (Htech 3 ltac:(tauto))).
Defined.

End ServerProofs.

(** * Further properties of the client *)

(** ** White space in the two text fields *)

(** The string begins with a white-space code unit. *)
Definition starts_with_space (s : jsstring) : bool :=
  match s with
  | c :: _ => isWhiteSpace c
  | [] => false
  end.

(** No two neighbouring code units are both white space. *)
Fixpoint no_space_run (s : jsstring) : bool :=
  match s with
  | a :: (b :: _) as s' => negb (isWhiteSpace a && isWhiteSpace b) && no_space_run s'
  | _ => true
  end.

(** The code units that are not white space, in order. *)
Definition visible (s : jsstring) : jsstring :=
  List.filter (fun c => negb (isWhiteSpace c)) s.

(** Neither the first nor the last code unit is white space. *)
Definition trimmed (s : jsstring) : Prop :=
  starts_with_space s = false /\ starts_with_space (rev s) = false.

Lemma flushRun_short run : length run <= 1 -> flushRun run = run.
Proof. destruct run as [|a [|b run]]; simpl; intros; try reflexivity; lia. Qed.

Lemma flushRun_length run : length (flushRun run) <= length run.
Proof. destruct run as [|a [|b run]]; simpl; lia. Qed.

Lemma flushRun_visible run :
  forallb isWhiteSpace run = true -> visible (flushRun run) = [].
Proof.
  destruct run as [|a [|b run]]; simpl; intros H; try reflexivity.
  rewrite andb_true_r in H. now rewrite H.
Qed.

Lemma forallb_snoc (f : N -> bool) l c :
  forallb f (l ++ [c]) = forallb f l && f c.
Proof. rewrite forallb_app. simpl. now rewrite andb_true_r. Qed.

Lemma no_space_run_cons_visible c s :
  isWhiteSpace c = false -> no_space_run (c :: s) = no_space_run s.
Proof. intros Hc. destruct s; simpl; [reflexivity | now rewrite Hc]. Qed.

Lemma collapseFrom_no_space_run s : forall run,
  forallb isWhiteSpace run = true -> no_space_run (collapseFrom run s) = true.
Proof.
  induction s as [|c s IH]; intros run Hrun; simpl.
  - now destruct run as [|a [|b run]].
  - destruct (isWhiteSpace c) eqn:Hc.
    + apply IH. now rewrite forallb_snoc, Hrun, Hc.
    + assert (Hrest : no_space_run (c :: collapseFrom [] s) = true)
        by (rewrite no_space_run_cons_visible by exact Hc; now apply IH).
      assert (Hone : forall a, no_space_run (a :: c :: collapseFrom [] s) = true)
        by (intros a; change (negb (isWhiteSpace a && isWhiteSpace c)
                              && no_space_run (c :: collapseFrom [] s) = true);
            now rewrite Hc, andb_false_r, Hrest).
      destruct run as [|a [|b run]]; [exact Hrest | apply Hone | apply Hone].
Qed.

Lemma no_space_run_tail a s : no_space_run (a :: s) = true -> no_space_run s = true.
Proof.
  destruct s as [|b s]; [reflexivity|].
  change (negb (isWhiteSpace a && isWhiteSpace b) && no_space_run (b :: s) = true
          -> no_space_run (b :: s) = true).
  intros H. now apply andb_true_iff in H.
Qed.

Lemma collapseFrom_fixed s : forall run,
  length run <= 1 -> no_space_run (run ++ s) = true ->
  forallb isWhiteSpace run = true ->
  collapseFrom run s = run ++ s.
Proof.
  induction s as [|c s IH]; intros run Hlen Hno Hrun; simpl.
  - rewrite app_nil_r. now apply flushRun_short.
  - destruct (isWhiteSpace c) eqn:Hc.
    + destruct run as [|a [|b run]]; simpl in *; try lia.
      * apply (IH [c]); simpl; [lia | exact Hno | now rewrite Hc].
      * rewrite andb_true_r in Hrun. now rewrite Hrun, Hc in Hno.
    + rewrite flushRun_short by exact Hlen. f_equal. f_equal.
      apply (IH []); [simpl; lia | | reflexivity].
      destruct run as [|a [|b run]]; [| | simpl in Hlen; lia].
      * exact (no_space_run_tail _ _ Hno).
      * exact (no_space_run_tail _ _ (no_space_run_tail _ _ Hno)).
Qed.

Lemma collapseFrom_visible s : forall run,
  forallb isWhiteSpace run = true -> visible (collapseFrom run s) = visible s.
Proof.
  induction s as [|c s IH]; intros run Hrun; simpl.
  - now apply flushRun_visible.
  - destruct (isWhiteSpace c) eqn:Hc; simpl.
    + apply IH. now rewrite forallb_snoc, Hrun, Hc.
    + unfold visible at 1. rewrite List.filter_app. fold (visible (flushRun run)).
      rewrite flushRun_visible by exact Hrun. simpl. rewrite Hc. simpl.
      f_equal. now apply IH.
Qed.

Lemma collapseFrom_length s : forall run,
  length (collapseFrom run s) <= length run + length s.
Proof.
  induction s as [|c s IH]; intros run; simpl.
  - pose proof (flushRun_length run). lia.
  - destruct (isWhiteSpace c).
    + specialize (IH (run ++ [c])). rewrite length_app in IH. simpl in IH. lia.
    + rewrite length_app. simpl. pose proof (flushRun_length run).
      specialize (IH []). simpl in IH. lia.
Qed.

(** X1: whatever is typed or pasted into the message field, what the
    listener of line 453 leaves in it has no two neighbouring white-space
    code units; running the replacement again changes nothing. *)
Theorem collapseSpaces_no_space_run (s : jsstring) :
  no_space_run (collapseSpaces s) = true /\
  collapseSpaces (collapseSpaces s) = collapseSpaces s.
Proof.
  assert (H : no_space_run (collapseSpaces s) = true)
    by (apply collapseFrom_no_space_run; reflexivity).
  split; [exact H|].
  apply (collapseFrom_fixed _ []); simpl; [lia | exact H | reflexivity].
Qed.

(** X2: the replacement rewrites exactly the strings that hold two
    neighbouring white-space code units.  A string without such a pair is
    left as it is, so a single TAB or NO-BREAK SPACE is not normalised to a
    space; only a run of two or more is. *)
Theorem collapseSpaces_fixed_points (s : jsstring) :
  collapseSpaces s = s <-> no_space_run s = true.
Proof.
  split.
  - intros Heq. rewrite <- Heq. apply collapseFrom_no_space_run. reflexivity.
  - intros Hno. apply (collapseFrom_fixed _ []); simpl; [lia | exact Hno | reflexivity].
Qed.

(** X3: the replacement never touches a code unit that is not white
    space: those of the result are those of the input, in the same order;
    and the result is never longer than the input. *)
Theorem collapseSpaces_keeps_visible (s : jsstring) :
  visible (collapseSpaces s) = visible s /\
  length (collapseSpaces s) <= length s.
Proof.
  split.
  - apply collapseFrom_visible. reflexivity.
  - apply (collapseFrom_length s []).
Qed.

(** *** trim *)

Lemma trimStart_split s :
  exists l, s = l ++ trimStart s /\ forallb isWhiteSpace l = true /\
            starts_with_space (trimStart s) = false.
Proof.
  induction s as [|c s (l & Hs & Hl & Hstart)]; simpl.
  - exists []. auto.
  - destruct (isWhiteSpace c) eqn:Hc.
    + exists (c :: l). simpl. rewrite Hc, Hl. split; [congruence | auto].
    + exists []. simpl. auto.
Qed.

Lemma forallb_rev (f : N -> bool) l : forallb f (rev l) = forallb f l.
Proof.
  induction l as [|a l IH]; simpl; [reflexivity|].
  rewrite forallb_snoc, IH. apply andb_comm.
Qed.

Lemma trim_split s :
  exists l r,
    s = l ++ trim s ++ r /\
    forallb isWhiteSpace l = true /\ forallb isWhiteSpace r = true /\
    trimmed (trim s).
Proof.
  destruct (trimStart_split s) as (l & Hs & Hl & Hstart).
  destruct (trimStart_split (rev (trimStart s))) as (r & Hr & Hrs & Hend).
  exists l, (rev r). unfold trim, trimEnd.
  assert (Hmid : trimStart s = rev (trimStart (rev (trimStart s))) ++ rev r).
  { rewrite <- rev_app_distr, <- Hr. now rewrite rev_involutive. }
  split; [now rewrite <- Hmid|]. split; [exact Hl|].
  split; [now rewrite forallb_rev|].
  split; [|now rewrite rev_involutive].
  destruct (rev (trimStart (rev (trimStart s)))) as [|c m] eqn:Hm; [reflexivity|].
  rewrite Hmid in Hstart. simpl in *. exact Hstart.
Qed.

Lemma trimStart_id s : starts_with_space s = false -> trimStart s = s.
Proof. destruct s as [|c s]; simpl; [reflexivity | now intros ->]. Qed.

Lemma trim_id s : trimmed s -> trim s = s.
Proof.
  intros [Hstart Hend]. unfold trim, trimEnd.
  rewrite (trimStart_id s Hstart), (trimStart_id _ Hend). apply rev_involutive.
Qed.

Lemma trimStart_spaces s : forallb isWhiteSpace s = true -> trimStart s = [].
Proof.
  induction s as [|c s IH]; simpl; [reflexivity|].
  intros H. apply andb_true_iff in H as [-> H]. auto.
Qed.

Lemma trim_empty s : trim s = [] <-> forallb isWhiteSpace s = true.
Proof.
  split.
  - intros He. destruct (trim_split s) as (l & r & Hs & Hl & Hr & _).
    rewrite He in Hs. simpl in Hs. rewrite Hs, forallb_app, Hl, Hr. reflexivity.
  - intros H. unfold trim. now rewrite (trimStart_spaces s H).
Qed.

(** X4: [trim], as the three handlers use it on the two fields: the
    field's value is the trimmed string between two stretches of white
    space; the trimmed string neither begins nor ends with white space, so
    trimming it again changes nothing; and it is empty exactly when the
    value is white space throughout. *)
Theorem trim_strips_both_ends (s : jsstring) :
  (exists l r,
      s = l ++ trim s ++ r /\
      forallb isWhiteSpace l = true /\ forallb isWhiteSpace r = true) /\
  trimmed (trim s) /\
  trim (trim s) = trim s /\
  (trim s = [] <-> forallb isWhiteSpace s = true).
Proof.
  destruct (trim_split s) as (l & r & Hs & Hl & Hr & Ht).
  split; [eauto|]. split; [exact Ht|].
  split; [apply trim_id; exact Ht | apply trim_empty].
Qed.

(** ** Joining *)

Lemma truthy_nonempty s : truthy s = true <-> s <> [].
Proof. destruct s; simpl; split; congruence. Qed.

Lemma truthy_empty s : truthy s = false <-> s = [].
Proof. destruct s; simpl; split; congruence. Qed.

(** X5: what the user sees of a rejected join.  With nothing but white
    space in the username field, [handleJoin] turns the field's border to
    the danger colour and arms one timer, a second ahead, and changes
    nothing else; when that timer fires the border colour is reset and
    nothing else changes.  With a name of more than 20 code units the
    state is left exactly as it was. *)
Theorem handleJoin_rejection_feedback (st : State) :
  let username := trim (usernameInput_value (loginScreen st)) in
  let timer := {| due := (clock st + 1000)%N; callback := ResetBorder; pending := true |} in
  let handle := length (timers st) in
  (username = [] ->
   exec handleJoin st
   = set_timers (timers st ++ [timer])
       (set_loginScreen
          (set_usernameInput_borderColor (lit "var(--danger)") (loginScreen st)) st) /\
   forall st2,
     timers st2 !! handle = Some timer -> (due timer <= clock st2)%N ->
     step (timer_fire handle) st2
     = Some (set_loginScreen
               (set_usernameInput_borderColor (lit "") (loginScreen st2))
               (set_timers (alter cancel handle (timers st2)) st2))) /\
  (20 < length username -> exec handleJoin st = st).
Proof.
  intros username timer handle. split.
  - intros Hempty. split.
    + wp_start. wp_run; try reflexivity.
      all: subst username; rewrite Hempty in *; discriminate.
    + intros st2 Hl Hdue. simpl. rewrite Hl. simpl.
      apply N.leb_le in Hdue. simpl in Hdue. rewrite Hdue. reflexivity.
  - intros Hlong. subst username. wp_start. wp_run; try reflexivity.
    all: try (apply Nat.ltb_ge in Heqb0; lia).
    apply negb_true_iff, truthy_empty in Heqb. rewrite Heqb in Hlong.
    simpl in Hlong. lia.
Qed.




(** ** What the client transmits *)

(** A name [handleJoin] accepts or [handleLeave] leaves behind: at most
    20 code units, no white space at either end. *)
Definition name_ok (u : jsstring) : Prop := length u <= 20 /\ trimmed u.

(** The frames an event may hand to a socket, in terms of the state the
    event finds. *)
Definition transmits (st : State) (e : Envelope) : Prop :=
  e = join_envelope (currentUsername st) (currentRoom st) \/
  e = typing_envelope \/ e = stop_typing_envelope \/
  (e = chat_envelope (trim (messageInput_value (chatScreen st))) /\
   trim (messageInput_value (chatScreen st)) <> []).

Definition transmitted (st st' : State) : Prop :=
  forall ref,
    exists new, sent_on ref st' = sent_on ref st ++ new /\ Forall (transmits st) new.

(** A frame as the server may find it on a connection. *)
Definition frame_ok (e : Envelope) : Prop :=
  (exists u r, e = join_envelope u r /\ name_ok u) \/
  e = typing_envelope \/ e = stop_typing_envelope \/
  (exists m, e = chat_envelope m /\ m <> [] /\ trimmed m).

Definition frames_ok (st : State) : Prop :=
  name_ok (currentUsername st) /\ forall ref, Forall frame_ok (sent_on ref st).

Lemma name_ok_empty : name_ok (lit "").
Proof. split; [simpl; lia | split; reflexivity]. Qed.

Lemma name_ok_trim v : (20 <? length (trim v)) = false -> name_ok (trim v).
Proof.
  intros Hlen. apply Nat.ltb_ge in Hlen. split; [exact Hlen|].
  destruct (trim_split v) as (_ & _ & _ & _ & _ & Ht). exact Ht.
Qed.

Lemma trimmed_trim v : trimmed (trim v).
Proof. destruct (trim_split v) as (_ & _ & _ & _ & _ & Ht). exact Ht. Qed.

Ltac transmits_one :=
  unfold transmits; proj_simpl;
  first [ left; reflexivity
        | right; left; reflexivity
        | right; right; left; reflexivity
        | right; right; right; split;
          [reflexivity | apply truthy_nonempty; assumption] ].

Ltac transmits_leaf :=
  let ref := fresh "ref" in
  intros ref; norm_hyps;
  first
    [ congruence
    | try match goal with
          | H : socket _ = Some ?n |- _ => destruct (decide (ref = n)); [subst ref|]
          end;
      (eexists; split;
       [ log_simpl; first [ reflexivity | symmetry; apply app_nil_r ]
       | repeat (constructor; [transmits_one|]); constructor ]) ].

Lemma step_transmits e st st' : step e st = Some st' -> transmitted st st'.
Proof.
  intros Hstep. step_cases Hstep.
  all: try (wp_start; wp_run).
  all: try solve [transmits_leaf].
Qed.

Lemma step_name e st st' :
  step e st = Some st' -> name_ok (currentUsername st) -> name_ok (currentUsername st').
Proof.
  intros Hstep Hname. step_cases Hstep; try exact Hname.
  all: wp_start; wp_run; proj_simpl;
    first [ exact Hname | apply name_ok_empty | apply name_ok_trim; assumption ].
Qed.

Lemma frame_ok_transmits st e : name_ok (currentUsername st) -> transmits st e -> frame_ok e.
Proof.
  intros Hname [-> | [-> | [-> | [-> Hne]]]].
  - left. eauto.
  - right. left. reflexivity.
  - right. right. left. reflexivity.
  - right. right. right. eexists. split; [reflexivity|]. split; [exact Hne|].
    apply trimmed_trim.
Qed.

Lemma frames_ok_step e st st' : frames_ok st -> step e st = Some st' -> frames_ok st'.
Proof.
  intros [Hname Hlogs] Hstep. split; [eapply step_name; eassumption|].
  intros ref. destruct (step_transmits e st st' Hstep ref) as (new & -> & Hnew).
  apply Forall_app. split; [apply Hlogs|].
  eapply Forall_impl; [exact Hnew|]. intros x. apply frame_ok_transmits. exact Hname.
Qed.

Lemma frames_ok_run events : forall st st',
  frames_ok st -> run events st = Some st' -> frames_ok st'.
Proof.
  induction events as [|e events IH]; simpl; intros st st' Hok Hrun.
  - congruence.
  - destruct (step e st) as [st1|] eqn:Hstep; [|discriminate].
    eauto using frames_ok_step.
Qed.

Lemma frames_ok_reachable st : reachable st -> frames_ok st.
Proof.
  intros (st0 & events & Hinit & Hrun).
  eapply frames_ok_run; [|exact Hrun].
  destruct Hinit as (_ & Hu & _ & _ & _ & Hss & _).
  split; [rewrite Hu; apply name_ok_empty|].
  intros ref. unfold sent_on. rewrite Hss. constructor.
Qed.

(** X7: in every state the script can reach, the current username has at
    most 20 code units and neither begins nor ends with white space, and
    so has the username of every frame sent on any socket. *)
Theorem username_bounded_and_trimmed (st : State) (Hreach : reachable st) :
  (length (currentUsername st) <= 20 /\ trimmed (currentUsername st)) /\
  (forall ref e u,
      e ∈ sent_on ref st -> field "username" e = Some u ->
      length u <= 20 /\ trimmed u).
Proof.
  destruct (frames_ok_reachable st Hreach) as [Hname Hlogs].
  split; [exact Hname|].
  intros ref e u He Hu. specialize (Hlogs ref).
  rewrite Forall_forall in Hlogs.
  destruct (Hlogs e He) as [(u' & r & -> & Hok) | [-> | [-> | (m & -> & _)]]];
    try discriminate Hu.
  injection Hu as <-. exact Hok.
Qed.

Lemma username_bounded_and_trimmed_witness :
  (length (currentUsername Ada_connected) <= 20 /\
   trimmed (currentUsername Ada_connected)) /\
  currentUsername Ada_connected = lit "Ada".
Proof.
  assert (Hreach : reachable Ada_connected)
    by (apply (reachable_run Ada_connects); vm_compute; reflexivity).
  split; [exact (proj1 (username_bounded_and_trimmed Ada_connected Hreach))|].
  vm_compute. reflexivity.
Defined.

(** X8: in every state the script can reach, every frame sent on any
    socket is a join envelope, a typing envelope, a stop_typing envelope,
    or a chat envelope whose message is not empty and neither begins nor
    ends with white space: the client never transmits a blank chat
    message. *)
Theorem frames_sent_are_well_formed (st : State) (Hreach : reachable st) :
  forall ref e,
    e ∈ sent_on ref st ->
    (exists u r, e = join_envelope u r) \/
    e = typing_envelope \/ e = stop_typing_envelope \/
    (exists m, e = chat_envelope m /\ m <> [] /\ trimmed m).
Proof.
  destruct (frames_ok_reachable st Hreach) as [_ Hlogs].
  intros ref e He. specialize (Hlogs ref). rewrite Forall_forall in Hlogs.
  destruct (Hlogs e He) as [(u & r & -> & _) | [-> | [-> | Hchat]]]; eauto.
Qed.

(** Ada has sent "hi". *)
Definition Ada_sent_hi : State :=
  default fresh_page (run (Ada_writes_hi ++ [sendBtn_click noon]) fresh_page).

Lemma frames_sent_are_well_formed_witness :
  sent_on 0 Ada_sent_hi
  = [join_envelope (lit "Ada") (lit "general"); typing_envelope;
     chat_envelope (lit "hi"); stop_typing_envelope] /\
  (forall e,
      e ∈ sent_on 0 Ada_sent_hi ->
      (exists u r, e = join_envelope u r) \/
      e = typing_envelope \/ e = stop_typing_envelope \/
      (exists m, e = chat_envelope m /\ m <> [] /\ trimmed m)).
Proof.
  assert (Hreach : reachable Ada_sent_hi)
    by (apply (reachable_run (Ada_writes_hi ++ [sendBtn_click noon]));
        vm_compute; reflexivity).
  split; [vm_compute; reflexivity|].
  exact (frames_sent_are_well_formed Ada_sent_hi Hreach 0).
Defined.

(** ** The message field and the send button *)

Lemma all_spaces_visible s :
  forallb isWhiteSpace s = match visible s with [] => true | _ :: _ => false end.
Proof.
  induction s as [|c s IH]; simpl; [reflexivity|].
  destruct (isWhiteSpace c); simpl; [exact IH | reflexivity].
Qed.

Lemma all_spaces_collapseSpaces s :
  forallb isWhiteSpace (collapseSpaces s) = forallb isWhiteSpace s.
Proof.
  rewrite !all_spaces_visible. unfold collapseSpaces.
  now rewrite collapseFrom_visible.
Qed.

Lemma truthy_trim s : truthy (trim s) = negb (forallb isWhiteSpace s).
Proof.
  destruct (forallb isWhiteSpace s) eqn:Hall; simpl.
  - apply truthy_empty, trim_empty. exact Hall.
  - apply truthy_nonempty. intros He. apply trim_empty in He. congruence.
Qed.

(** X9: after every input event in the message field the field holds the
    typed text with its white-space runs collapsed, and the send button is
    disabled exactly when the typed text is empty or white space
    throughout; this is so whether or not a socket is open. *)
Theorem sendBtn_follows_input (st : State) (value : jsstring) :
  exists st',
    step (messageInput_input value) st = Some st' /\
    messageInput_value (chatScreen st') = collapseSpaces value /\
    sendBtn_disabled (chatScreen st') = forallb isWhiteSpace value.
Proof.
  eexists. split; [reflexivity|].
  rewrite exec_messageInput_oninput.
  rewrite <- (all_spaces_collapseSpaces value), <- (negb_involutive (forallb _ _)).
  rewrite <- truthy_trim.
  split; wp_start; wp_run; reflexivity.
Qed.

(** X10: [sendMessage] does nothing at all (no frame, no node in the
    message list, the field not cleared, no timer touched) when the
    trimmed text is empty, or when there is no socket or the socket is not
    open; the state is left exactly as it was, for the button and for the
    Enter key alike. *)
Theorem sendMessage_needs_text_and_open_socket (st : State) (now : Date)
    (Hidle : trim (messageInput_value (chatScreen st)) = [] \/
             forall ref, socket st = Some ref -> readyState_at ref st <> Some OPEN) :
  step (sendBtn_click now) st = Some st /\
  step (messageInput_Enter now) st = Some st.
Proof.
  assert (Hguard : negb (truthy (trim (messageInput_value (chatScreen st))))
                   || negb (socket_is_open st) = true).
  { destruct Hidle as [-> | Hclosed]; [reflexivity|].
    rewrite (socket_is_open_false st Hclosed). apply orb_true_r. }
  assert (Heff : exec (sendMessage now) st = st)
    by (wp_start; wp_run; first [reflexivity | congruence]).
  simpl. rewrite Heff. split; reflexivity.
Qed.

Lemma sendMessage_needs_text_and_open_socket_witness :
  trim (messageInput_value (chatScreen Ada_typed_then_dropped)) = lit "h" /\
  step (sendBtn_click noon) Ada_typed_then_dropped = Some Ada_typed_then_dropped.
Proof.
  split; [vm_compute; reflexivity|].
  assert (Hclosed : forall ref,
             socket Ada_typed_then_dropped = Some ref ->
             readyState_at ref Ada_typed_then_dropped <> Some OPEN)
    by (intros ref Hs; vm_compute in Hs; injection Hs as <-; vm_compute; discriminate).
  exact (proj1 (sendMessage_needs_text_and_open_socket Ada_typed_then_dropped noon
                  (or_intror Hclosed))).
Defined.

Lemma sendMessage_timers st now :
  negb (truthy (trim (messageInput_value (chatScreen st)))) || negb (socket_is_open st)
  = false ->
  let st1 := exec (sendMessage now) st in
  messageInput_value (chatScreen st1) = lit "" /\
  sendBtn_disabled (chatScreen st1) = true /\
  isTyping st1 = false /\
  typingTimeout st1 = typingTimeout st /\
  timers st1
  = match typingTimeout st with
    | Some handle => alter cancel handle (timers st)
    | None => timers st
    end.
Proof.
  intros Hguard. cbv zeta. wp_start. wp_run; try congruence.
  all: norm_hyps; try congruence.
  all: repeat split; first [reflexivity | congruence].
Qed.

(** X11: a message that is sent (trimmed text not empty, socket open)
    leaves the field empty, the send button disabled and the client not
    marked typing; the stop-typing timer armed by the last keystroke is
    cancelled, so that, in a state the script can reach, no stop-typing
    timer is pending afterwards and none can fire until the next
    keystroke. *)
Theorem sendMessage_clears_field_and_typing (st : State) (now : Date) (ref : nat)
    (Hreach : reachable st)
    (Hsock : socket st = Some ref) (Hopen : readyState_at ref st = Some OPEN)
    (Hmsg : trim (messageInput_value (chatScreen st)) <> []) :
  let st1 := exec (sendMessage now) st in
  step (sendBtn_click now) st = Some st1 /\
  messageInput_value (chatScreen st1) = lit "" /\
  sendBtn_disabled (chatScreen st1) = true /\
  isTyping st1 = false /\
  typingTimeout st1 = typingTimeout st /\
  (forall handle t,
      timers st1 !! handle = Some t -> callback t = StopTyping ->
      pending t = false /\ step (timer_fire handle) st1 = None).
Proof.
  intros st1.
  assert (Hguard : negb (truthy (trim (messageInput_value (chatScreen st))))
                   || negb (socket_is_open st) = false).
  { rewrite (socket_is_open_intro st ref Hsock Hopen).
    apply truthy_nonempty in Hmsg. now rewrite Hmsg. }
  destruct (sendMessage_timers st now Hguard) as (Hfield & Hbtn & Hflag & Hheld & Htimers).
  fold st1 in Hfield, Hbtn, Hflag, Hheld, Htimers.
  split; [reflexivity|]. split; [exact Hfield|]. split; [exact Hbtn|].
  split; [exact Hflag|]. split; [exact Hheld|].
  intros handle t Hl Hcb.
  assert (Hp : pending t = false).
  { pose proof (inv_timers st (Inv_reachable st Hreach)) as Hok.
    unfold stop_timer_ok, timers_ok in Hok.
    rewrite Htimers in Hl. destruct (typingTimeout st) as [held|] eqn:Hh.
    - destruct (decide (held = handle)) as [->|Hne].
      + rewrite list_lookup_alter_eq in Hl.
        destruct (timers st !! handle); [|discriminate].
        injection Hl as <-. reflexivity.
      + rewrite list_lookup_alter_ne in Hl by exact Hne.
        destruct (pending t) eqn:Hpt; [|reflexivity].
        specialize (Hok handle t Hl Hcb Hpt). congruence.
    - destruct (pending t) eqn:Hpt; [|reflexivity].
      specialize (Hok handle t Hl Hcb Hpt). discriminate. }
  split; [exact Hp|]. eapply timer_fire_not_pending; eassumption.
Qed.

Lemma sendMessage_clears_field_and_typing_witness :
  let st1 := exec (sendMessage noon) Ada_wrote_hi in
  isTyping Ada_wrote_hi = true /\
  step (sendBtn_click noon) Ada_wrote_hi = Some st1 /\
  messageInput_value (chatScreen st1) = lit "" /\
  isTyping st1 = false /\
  step (timer_fire 1) st1 = None.
Proof.
  assert (Hreach : reachable Ada_wrote_hi)
    by (apply (reachable_run Ada_writes_hi); vm_compute; reflexivity).
  assert (Hmsg : trim (messageInput_value (chatScreen Ada_wrote_hi)) <> [])
    by (vm_compute; discriminate).
  destruct (sendMessage_clears_field_and_typing Ada_wrote_hi noon 0 Hreach
              eq_refl eq_refl Hmsg)
    as (Hstep & Hfield & _ & Hflag & _ & Hnone).
  split; [vm_compute; reflexivity|].
  split; [exact Hstep|]. split; [exact Hfield|]. split; [exact Hflag|].
  refine (proj2 (Hnone 1 {| due := 1000; callback := StopTyping; pending := false |} _ eq_refl)).
  vm_compute. reflexivity.
Defined.

(** ** Incoming frames *)

(** The nodes [handleMessage] appends for a frame. *)
Definition renders (data : option ServerData) : nat :=
  match data with
  | Some (chat _ _ _) | Some (system _) => 1
  | _ => 0
  end.

(** X12: a frame from the server, its fields typed as the relay server
    types them, changes the chat view and nothing else: the five
    variables, the login view, the status banner, the sockets and the
    timers are as before, so no frame is sent and no timer armed in
    answer.  Within the chat view the text field, the send button, the
    title and the visibility of the view and of the room dialog are as
    before, and the message list keeps its nodes and gains one node for a
    system frame and for a chat frame whose username is a string, none for
    a typing or stats frame.  A chat frame whose username is absent or not
    a string, a frame of another type, and a payload that is not JSON or
    is [null] make the handler throw or do nothing: they leave the state
    exactly as it was. *)
Theorem incoming_frame_only_renders (st st' : State) (ref : nat) (now : Date)
    (data : option ServerData)
    (Hstep : step (socket_message ref now data) st = Some st') :
  st' = set_chatScreen (chatScreen st') st /\
  chat_hidden (chatScreen st') = chat_hidden (chatScreen st) /\
  messageInput_value (chatScreen st') = messageInput_value (chatScreen st) /\
  sendBtn_disabled (chatScreen st') = sendBtn_disabled (chatScreen st) /\
  currentRoomEl_text (chatScreen st') = currentRoomEl_text (chatScreen st) /\
  roomModal_hidden (chatScreen st') = roomModal_hidden (chatScreen st) /\
  (exists new,
      messagesList (chatScreen st') = messagesList (chatScreen st) ++ new /\
      length new = renders data) /\
  (data = None \/ data = Some other_type \/
   (exists message timestamp, data = Some (chat_unnamed message timestamp)) ->
   st' = st).
Proof.
  simpl in Hstep. destruct (readyState_at ref st) as [[]|]; try discriminate.
  injection Hstep as <-.
  assert (Hsame : forall s : State, set_chatScreen (chatScreen s) s = s)
    by (intros []; reflexivity).
  destruct data
    as [[username message timestamp | message timestamp | message | users | online | ]|].
  all: repeat split;
    try (wp_start; wp_run; proj_simpl;
         first [ reflexivity | symmetry; apply Hsame
               | eexists; split; [reflexivity | reflexivity]
               | exists []; split; [symmetry; apply app_nil_r | reflexivity] ]).
  all: try (intros [Hd | [Hd | (m & t & Hd)]]; discriminate Hd).
  all: try (intros _; reflexivity).
Qed.

Lemma incoming_frame_only_renders_witness :
  let frame := Some (system (lit "Ada joined the room")) in
  let st' := exec (socket_onmessage noon frame) Ada_connected in
  st' = set_chatScreen (chatScreen st') Ada_connected /\
  messagesList (chatScreen st') = [SystemMessage (lit "Ada joined the room")].
Proof.
  assert (Hstep : step (socket_message 0 noon (Some (system (lit "Ada joined the room"))))
                    Ada_connected
                  = Some (exec (socket_onmessage noon
                                  (Some (system (lit "Ada joined the room"))))
                            Ada_connected))
    by (vm_compute; reflexivity).
  split; [|vm_compute; reflexivity].
  exact (proj1 (incoming_frame_only_renders _ _ 0 noon _ Hstep)).
Defined.

(** ** Connections: what each event does to the sockets and the timers *)

(** What [showConnectionStatus] leaves of the status banner. *)
Definition banner (message : jsstring) (showSpinner : bool) : ConnectionStatus :=
  {| status_hidden := false; statusText_text := message;
     spinner_display := if showSpinner then lit "block" else lit "none" |}.

(** A WebSocket object as [new WebSocket] returns it. *)
Definition connecting : WebSocket := {| readyState := CONNECTING; sent := [] |}.

(** The socket after a call of [close()]. *)
Definition closed_socket (ws : WebSocket) : WebSocket :=
  {| readyState := closed_by_script (readyState ws); sent := sent ws |}.

Lemma insert_after_alter {A} (f : A -> A) (l : list A) : forall i x,
  <[i := x]> (alter f i l) = <[i := x]> l.
Proof. induction l as [|a l IH]; intros [|i] x; simpl; f_equal; auto. Qed.

Lemma closed_socket_id ws :
  readyState ws = CLOSING \/ readyState ws = CLOSED -> closed_socket ws = ws.
Proof. destruct ws as [[] log]; simpl; intros [H|H]; try discriminate; reflexivity. Qed.

(** The current socket opens: the join envelope is sent on it, the banner
    reads "Connected" and the timer that hides the banner is armed. *)
Lemma socket_open_current st ref ws :
  socket st = Some ref -> sockets st !! ref = Some ws -> readyState ws = CONNECTING ->
  step (socket_open ref) st
  = Some (set_timers
            (timers st ++ [{| due := (clock st + 2000)%N; callback := HideStatus;
                              pending := true |}])
            (set_connectionStatus (banner (lit "Connected") false)
               (set_sockets
                  (<[ref := {| readyState := OPEN;
                               sent := sent ws
                                       ++ [join_envelope (currentUsername st)
                                             (currentRoom st)] |}]> (sockets st))
                  st))).
Proof.
  intros Hs Hw Hr. unfold step, readyState_at. rewrite Hw. simpl. rewrite Hr.
  f_equal. wp_start. wp_run; norm_hyps.
  rewrite insert_after_alter. reflexivity.
Qed.

(** A socket closes: the banner announces the reconnect and the
    reconnect timer is armed. *)
Lemma socket_close_effect st ref r :
  readyState_at ref st = Some r -> r <> CLOSED ->
  step (socket_close ref) st
  = Some (set_timers
            (timers st ++ [{| due := (clock st + 2000)%N; callback := Reconnect;
                              pending := true |}])
            (set_connectionStatus (banner (lit "Disconnected - Reconnecting...") true)
               (set_sockets (alter (set_readyState CLOSED) ref (sockets st)) st))).
Proof.
  intros Hready Hr. simpl. rewrite Hready.
  destruct r; try contradiction; reflexivity.
Qed.

(** The reconnect timer fires while the chat view is shown. *)
Lemma reconnect_timer_fires st handle t :
  timers st !! handle = Some t -> callback t = Reconnect -> pending t = true ->
  (due t <= clock st)%N -> chat_hidden (chatScreen st) = false ->
  step (timer_fire handle) st
  = Some (set_socket (Some (length (sockets st)))
            (set_sockets (sockets st ++ [connecting])
               (set_connectionStatus (banner (lit "Connecting...") true)
                  (set_timers (alter cancel handle (timers st)) st)))).
Proof.
  intros Hl Hcb Hp Hdue Hshown. simpl. rewrite Hl, Hp. simpl.
  apply N.leb_le in Hdue. rewrite Hdue, Hcb. f_equal.
  wp_start. wp_run; [reflexivity|].
  rewrite Hshown in Heqb. discriminate.
Qed.

(** The item of another, configured room is clicked. *)
Lemma roomItem_click_switches st newRoom config ref ws :
  newRoom <> currentRoom st -> roomConfig_get newRoom = Some config ->
  socket st = Some ref -> sockets st !! ref = Some ws ->
  exec (roomItem_click newRoom) st
  = set_chatScreen
      (set_roomModal_hidden true
         (set_currentRoomEl_text (name config) (set_messagesList [] (chatScreen st))))
      (set_socket (Some (length (sockets st)))
         (set_sockets (<[ref := closed_socket ws]> (sockets st) ++ [connecting])
            (set_connectionStatus (banner (lit "Connecting...") true)
               (set_currentRoom newRoom st)))).
Proof.
  intros Hnew Hconfig Hs Hw. apply roomConfig_name_own in Hconfig.
  assert (Hkeep : <[ref := ws]> (sockets st) = sockets st) by (apply list_insert_id; exact Hw).
  wp_start. wp_run.
  all: try (apply bool_decide_eq_false in Heqb; contradiction).
  all: try (apply bool_decide_eq_true in Heqb0; contradiction).
  all: try congruence.
  all: simplify_eq; rewrite ?length_insert.
  all: try (destruct ws as [r log]; simpl in *; subst; reflexivity).
  all: rewrite closed_socket_id, Hkeep by auto; reflexivity.
Qed.

(** X13: the open handler sends on the socket the variable [socket]
    holds when the event runs, not on the socket that has opened.  When
    another socket than the current one opens, nothing is sent on it; if
    the current socket is open, one more join envelope goes out on the
    current socket; if the current socket is still connecting, [send]
    throws and the handler ends there, with the banner not updated and no
    timer armed; if the current socket is closing or closed, nothing is
    sent at all. *)
Theorem socket_onopen_uses_current_socket (st : State) (ref cur : nat) (wc : WebSocket)
    (Hconn : readyState_at ref st = Some CONNECTING)
    (Hcur : socket st = Some cur) (Hother : cur <> ref)
    (Hwc : sockets st !! cur = Some wc) :
  exists st',
    step (socket_open ref) st = Some st' /\
    readyState_at ref st' = Some OPEN /\
    sent_on ref st' = sent_on ref st /\
    match readyState wc with
    | OPEN =>
        sent_on cur st'
        = sent_on cur st ++ [join_envelope (currentUsername st) (currentRoom st)] /\
        connectionStatus st' = banner (lit "Connected") false
    | CONNECTING =>
        st' = set_sockets (alter (set_readyState OPEN) ref (sockets st)) st
    | CLOSING | CLOSED =>
        sent_on cur st' = sent_on cur st /\
        connectionStatus st' = banner (lit "Connected") false
    end.
Proof.
  pose proof Hconn as Hw. unfold readyState_at in Hw.
  apply fmap_Some in Hw as (ws & Hw & Hr).
  eexists. split; [simpl; rewrite Hconn; reflexivity|].
  assert (Hcur' : alter (set_readyState OPEN) ref (sockets st) !! cur = Some wc)
    by (rewrite list_lookup_alter_ne by congruence; exact Hwc).
  split; [|split].
  - wp_start. wp_run; simplify_eq; unfold readyState_at; proj_simpl.
    all: rewrite ?list_lookup_insert_ne by congruence.
    all: rewrite list_lookup_alter_eq, Hw; reflexivity.
  - wp_start. wp_run; simplify_eq; sent_on_simpl; reflexivity.
  - destruct (readyState wc) eqn:Hrc.
    all: repeat split; wp_start; wp_run; simplify_eq; try congruence.
    all: try reflexivity.
    all: sent_on_simpl; rewrite ?app_nil_r; reflexivity.
Qed.

(** Ada switches to the tech room; the old socket closes, and two seconds
    later the reconnect timer opens a third socket, which opens before
    the second one has. *)
Definition Ada_switches_and_reconnects : list Event :=
  Ada_connects
    ++ [roomItem_clicked (lit "tech"); socket_close 0; tick 2000; timer_fire 1;
        socket_open 2].

Definition Ada_switched_and_reconnected : State :=
  default fresh_page (run Ada_switches_and_reconnects fresh_page).

Lemma socket_onopen_uses_current_socket_witness :
  socket Ada_switched_and_reconnected = Some 2 /\
  exists st',
    step (socket_open 1) Ada_switched_and_reconnected = Some st' /\
    sent_on 1 st' = [] /\
    sent_on 2 st'
    = [join_envelope (lit "Ada") (lit "tech"); join_envelope (lit "Ada") (lit "tech")].
Proof.
  split; [vm_compute; reflexivity|].
  assert (Hwc : sockets Ada_switched_and_reconnected !! 2
                = Some {| readyState := OPEN;
                          sent := [join_envelope (lit "Ada") (lit "tech")] |})
    by (vm_compute; reflexivity).
  assert (Hlog1 : sent_on 1 Ada_switched_and_reconnected = [])
    by (vm_compute; reflexivity).
  assert (Hlog2 : sent_on 2 Ada_switched_and_reconnected
                  = [join_envelope (lit "Ada") (lit "tech")])
    by (vm_compute; reflexivity).
  assert (Hname : currentUsername Ada_switched_and_reconnected = lit "Ada")
    by (vm_compute; reflexivity).
  assert (Hroom : currentRoom Ada_switched_and_reconnected = lit "tech")
    by (vm_compute; reflexivity).
  destruct (socket_onopen_uses_current_socket Ada_switched_and_reconnected 1 2 _
              eq_refl eq_refl ltac:(discriminate) Hwc)
    as (st' & Hstep & _ & Hsame & Hjoin & _).
  rewrite Hlog1 in Hsame. rewrite Hlog2, Hname, Hroom in Hjoin.
  exists st'. split; [exact Hstep|]. split; [exact Hsame | exact Hjoin].
Defined.

Lemma insert_last {A} (l : list A) (x y : A) n :
  n = length l -> <[n := y]> (l ++ [x]) = l ++ [y].
Proof. intros ->. rewrite insert_app_r_alt by lia. now rewrite Nat.sub_diag. Qed.

Lemma step_tick ms st : step (tick ms) st = Some (set_clock (clock st + ms)%N st).
Proof. reflexivity. Qed.

(** X14: a room switch on an open connection ends with two new
    connections, not one.  [switchRoom] closes the old socket and opens a
    second one; the close event of the old socket then arms the reconnect
    timer like any other close event, and two seconds later, the chat view
    being shown, the timer opens a third socket, which replaces the second
    as the current one.  Once both have opened, the second and the third
    socket are both open and each has sent the join envelope for the new
    room under the same username. *)
Theorem switchRoom_then_reconnect_opens_two_sockets (st : State) (newRoom : jsstring)
    (config : RoomInfo) (ref : nat)
    (Hsock : socket st = Some ref) (Hopen : readyState_at ref st = Some OPEN)
    (Hshown : chat_hidden (chatScreen st) = false)
    (Hnew : newRoom <> currentRoom st) (Hconfig : roomConfig_get newRoom = Some config) :
  let second := length (sockets st) in
  let third := S (length (sockets st)) in
  let reconnect := S (length (timers st)) in
  let join := join_envelope (currentUsername st) newRoom in
  exists st',
    run [roomItem_clicked newRoom; socket_open second; socket_close ref; tick 2000;
         timer_fire reconnect; socket_open third] st = Some st' /\
    length (sockets st') = S third /\
    socket st' = Some third /\
    readyState_at ref st' = Some CLOSED /\
    readyState_at second st' = Some OPEN /\ sent_on second st' = [join] /\
    readyState_at third st' = Some OPEN /\ sent_on third st' = [join].
Proof.
  intros second third reconnect join.
  pose proof Hopen as Hw. unfold readyState_at in Hw.
  apply fmap_Some in Hw as (ws & Hw & Hr).
  assert (Href : ref < length (sockets st)) by (eapply lookup_lt_Some; exact Hw).
  cbn [run].
  change (step (roomItem_clicked newRoom) st)
    with (Some (exec (roomItem_click newRoom) st)).
  rewrite (roomItem_click_switches st newRoom config ref ws Hnew Hconfig Hsock Hw).
  assert (Hclosed : closed_socket ws = {| readyState := CLOSING; sent := sent ws |})
    by (unfold closed_socket; rewrite <- Hr; reflexivity).
  rewrite Hclosed.
  set (l1 := <[ref := {| readyState := CLOSING; sent := sent ws |}]> (sockets st)).
  assert (Hl1 : length l1 = second) by apply length_insert.
  set (joined := {| readyState := OPEN; sent := [join] |}).
  set (l3 := alter (set_readyState CLOSED) ref l1).
  assert (Hl3 : length l3 = second) by (unfold l3; rewrite length_alter; exact Hl1).
  erewrite (socket_open_current _ second connecting);
    [ | reflexivity | proj_simpl; apply list_lookup_middle; symmetry; exact Hl1 | reflexivity ].
  proj_simpl. rewrite (insert_last l1) by (symmetry; exact Hl1).
  change (sent connecting ++ [join_envelope (currentUsername st) newRoom]) with [join].
  fold joined.
  erewrite (socket_close_effect _ ref CLOSING);
    [ | unfold readyState_at; proj_simpl; rewrite lookup_app_l by lia;
        unfold l1; rewrite list_lookup_insert_eq by lia; reflexivity
      | discriminate ].
  proj_simpl. rewrite alter_app_l by lia. fold l3.
  rewrite step_tick. proj_simpl.
  erewrite (reconnect_timer_fires _ reconnect);
    [ | proj_simpl; apply list_lookup_middle; rewrite length_app; simpl; lia
      | reflexivity | reflexivity | proj_simpl; simpl; lia | exact Hshown ].
  proj_simpl.
  assert (Hthird : length (l3 ++ [joined]) = third)
    by (rewrite length_app, Hl3; simpl; lia).
  rewrite Hthird.
  erewrite (socket_open_current _ third connecting);
    [ | reflexivity | proj_simpl; apply list_lookup_middle; symmetry; exact Hthird
      | reflexivity ].
  proj_simpl. rewrite (insert_last (l3 ++ [joined])) by (symmetry; exact Hthird).
  change (sent connecting ++ [join_envelope (currentUsername st) newRoom]) with [join].
  fold joined.
  eexists. split; [reflexivity|].
  unfold readyState_at, sent_on. proj_simpl.
  split; [rewrite length_app, Hthird; simpl; lia|].
  split; [reflexivity|].
  rewrite (list_lookup_middle _ [] joined third) by (symmetry; exact Hthird).
  rewrite !(lookup_app_l _ [joined]) by (rewrite ?length_app, ?Hl3; simpl; lia).
  rewrite (list_lookup_middle _ [] joined second) by (symmetry; exact Hl3).
  unfold l3, l1. rewrite list_lookup_alter_eq, list_lookup_insert_eq by lia.
  repeat split; reflexivity.
Qed.

Lemma switchRoom_then_reconnect_opens_two_sockets_witness :
  exists st',
    run [roomItem_clicked (lit "tech"); socket_open 1; socket_close 0; tick 2000;
         timer_fire 2; socket_open 2] Ada_connected = Some st' /\
    socket st' = Some 2 /\
    readyState_at 1 st' = Some OPEN /\
    sent_on 1 st' = [join_envelope (lit "Ada") (lit "tech")] /\
    readyState_at 2 st' = Some OPEN /\
    sent_on 2 st' = [join_envelope (lit "Ada") (lit "tech")].
Proof.
  assert (Hnew : lit "tech" <> currentRoom Ada_connected)
    by (vm_compute; discriminate).
  assert (Hsockets : length (sockets Ada_connected) = 1) by (vm_compute; reflexivity).
  assert (Htimers : length (timers Ada_connected) = 1) by (vm_compute; reflexivity).
  assert (Hname : currentUsername Ada_connected = lit "Ada") by (vm_compute; reflexivity).
  destruct (switchRoom_then_reconnect_opens_two_sockets Ada_connected (lit "tech")
              {| name := lit "Tech Talk"; emoji := [240; 376; 8217; 187]%N |} 0
              eq_refl eq_refl eq_refl Hnew eq_refl)
    as (st' & Hrun & _ & Hcur & _ & Hopen1 & Hlog1 & Hopen2 & Hlog2).
  rewrite Hsockets, ?Htimers, ?Hname in *.
  exists st'. repeat split; assumption.
Defined.

(** ** Leaving *)





(** ** The status banner *)

(** The timer armed by the open handler fires. *)
Lemma hide_timer_fires st handle t :
  timers st !! handle = Some t -> callback t = HideStatus -> pending t = true ->
  (due t <= clock st)%N ->
  step (timer_fire handle) st
  = Some (set_connectionStatus (set_status_hidden true (connectionStatus st))
            (set_timers (alter cancel handle (timers st)) st)).
Proof.
  intros Hl Hcb Hp Hdue. simpl. rewrite Hl, Hp. simpl.
  apply N.leb_le in Hdue. rewrite Hdue, Hcb. reflexivity.
Qed.

(** X16: the timer that hides the "Connected" banner is armed when the
    socket opens and is never cancelled; two seconds after the open event
    it hides the banner whatever the banner then says.  If the connection
    drops within those two seconds, the banner "Disconnected -
    Reconnecting..." shown by the close handler is hidden while the socket
    is closed and the reconnect timer is still pending. *)
Theorem status_banner_hidden_while_reconnecting (st : State) (ref : nat)
    (ws : WebSocket) (d : N)
    (Hsock : socket st = Some ref) (Hw : sockets st !! ref = Some ws)
    (Hc : readyState ws = CONNECTING) (Hd : (d <= 2000)%N) :
  let hide := length (timers st) in
  exists st',
    run [socket_open ref; tick d; socket_close ref; tick (2000 - d); timer_fire hide] st
    = Some st' /\
    connectionStatus st'
    = {| status_hidden := true;
         statusText_text := lit "Disconnected - Reconnecting...";
         spinner_display := lit "block" |} /\
    readyState_at ref st' = Some CLOSED /\
    timers st' !! S hide
    = Some {| due := (clock st + d + 2000)%N; callback := Reconnect; pending := true |}.
Proof.
  intros hide.
  assert (Href : ref < length (sockets st)) by (eapply lookup_lt_Some; exact Hw).
  cbn [run].
  rewrite (socket_open_current st ref ws Hsock Hw Hc), step_tick.
  erewrite (socket_close_effect _ ref OPEN);
    [ | unfold readyState_at; proj_simpl;
        rewrite list_lookup_insert_eq by exact Href; reflexivity
      | discriminate ].
  rewrite step_tick.
  erewrite (hide_timer_fires _ hide);
    [ | proj_simpl; rewrite <- app_assoc; apply list_lookup_middle; reflexivity
      | reflexivity | reflexivity | proj_simpl; simpl; lia ].
  eexists. split; [reflexivity|].
  split; [reflexivity|].
  unfold readyState_at. proj_simpl.
  rewrite list_lookup_alter_eq, list_lookup_insert_eq by exact Href.
  split; [reflexivity|].
  rewrite list_lookup_alter_ne by (unfold hide; lia).
  apply list_lookup_middle. rewrite length_app. simpl. unfold hide. lia.
Qed.

Lemma status_banner_hidden_while_reconnecting_witness :
  exists st',
    run [socket_open 0; tick 1500; socket_close 0; tick 500; timer_fire 0] Ada_joining
    = Some st' /\
    status_hidden (connectionStatus st') = true /\
    readyState_at 0 st' = Some CLOSED /\
    (pending <$> timers st' !! 1) = Some true.
Proof.
  assert (Hw : sockets Ada_joining !! 0 = Some {| readyState := CONNECTING; sent := [] |})
    by (vm_compute; reflexivity).
  assert (Htimers : length (timers Ada_joining) = 0) by (vm_compute; reflexivity).
  destruct (status_banner_hidden_while_reconnecting Ada_joining 0 _ 1500 eq_refl Hw
              eq_refl ltac:(vm_compute; discriminate))
    as (st' & Hrun & Hbanner & Hclosed & Hpending).
  rewrite Htimers in Hrun, Hpending.
  exists st'. split; [exact Hrun|].
  split; [rewrite Hbanner; reflexivity|]. split; [exact Hclosed|].
  rewrite Hpending. reflexivity.
Defined.

(** ** Time stamps and the online count *)

Lemma digit_inj a b : (0 <= a)%Z -> (0 <= b)%Z -> digit a = digit b -> a = b.
Proof. unfold digit. intros Ha Hb H. lia. Qed.

Lemma getCurrentTime_digits now :
  getCurrentTime now
  = [digit (getHours now / 10); digit (getHours now mod 10); 58%N;
     digit (getMinutes now / 10); digit (getMinutes now mod 10)].
Proof.
  pose proof (getHours_range now). pose proof (getMinutes_range now).
  unfold getCurrentTime. cbv zeta. rewrite !padStart_two_digits by lia. reflexivity.
Qed.

(** X17: two instants get the same time stamp exactly when their local
    hour and their local minute are the same: the stamp determines the
    hour and the minute, and nothing else of the instant enters it. *)
Theorem getCurrentTime_same_minute (a b : Date) :
  getCurrentTime a = getCurrentTime b <->
  getHours a = getHours b /\ getMinutes a = getMinutes b.
Proof.
  pose proof (getHours_range a). pose proof (getMinutes_range a).
  pose proof (getHours_range b). pose proof (getMinutes_range b).
  rewrite !getCurrentTime_digits. split.
  - intros Heq. injection Heq as Hh1 Hh0 Hm1 Hm0.
    apply digit_inj in Hh1, Hh0, Hm1, Hm0;
      try (apply Z.div_pos; lia); try (apply Z.mod_pos_bound; lia).
    split.
    + rewrite (Z.div_mod (getHours a) 10), (Z.div_mod (getHours b) 10) by lia. congruence.
    + rewrite (Z.div_mod (getMinutes a) 10), (Z.div_mod (getMinutes b) 10) by lia.
      congruence.
  - intros [-> ->]. reflexivity.
Qed.

Lemma lit_inj s s' : lit s = lit s' -> s = s'.
Proof.
  unfold lit. intros H.
  rewrite <- (string_of_list_ascii_of_string s), <- (string_of_list_ascii_of_string s').
  f_equal. revert H. generalize (list_ascii_of_string s) (list_ascii_of_string s').
  induction l as [|c l IH]; intros [|c' l']; simpl; intros H; try discriminate.
  - reflexivity.
  - injection H as Hc Hl. f_equal; [|now apply IH].
    rewrite <- (ascii_N_embedding c), <- (ascii_N_embedding c'). now rewrite Hc.
Qed.

Lemma String_of_nat_inj n m : String_of_nat n = String_of_nat m -> n = m.
Proof.
  unfold String_of_nat. intros H. apply lit_inj in H.
  apply DecimalNat.Unsigned.to_uint_inj.
  assert (Hnn : forall k, Nat.to_uint k <> Decimal.Nil).
  { intros k. rewrite <- (DecimalNat.Unsigned.of_to k) at 1.
    rewrite DecimalNat.Unsigned.to_of. apply DecimalFacts.unorm_nonnil. }
  pose proof (NilZero.usu _ (Hnn n)) as Hn. pose proof (NilZero.usu _ (Hnn m)) as Hm.
  rewrite H in Hn. congruence.
Qed.

(** The code units of a decimal numeral. *)
Definition isDigit (c : N) : bool := ((48 <=? c) && (c <=? 57))%N.

Lemma string_of_uint_digits d : forallb isDigit (lit (NilEmpty.string_of_uint d)) = true.
Proof. induction d; simpl; try exact IHd; reflexivity. Qed.

Lemma String_of_nat_digits n : forallb isDigit (String_of_nat n) = true.
Proof.
  unfold String_of_nat. destruct (Nat.to_uint n); [reflexivity | ..].
  all: match goal with
       | |- forallb _ (lit (NilZero.string_of_uint ?d)) = true =>
           exact (string_of_uint_digits d)
       end.
Qed.

Lemma digits_then_space ds : forall ds' rest rest',
  forallb isDigit ds = true -> forallb isDigit ds' = true ->
  ds ++ 32%N :: rest = ds' ++ 32%N :: rest' -> ds = ds'.
Proof.
  induction ds as [|c ds IH]; intros [|c' ds'] rest rest' Hd Hd' Heq; simpl in *.
  - reflexivity.
  - injection Heq as <- _. discriminate.
  - injection Heq as -> _. discriminate.
  - apply andb_true_iff in Hd as [_ Hd], Hd' as [_ Hd'].
    injection Heq as -> Heq. f_equal. eapply IH; eassumption.
Qed.

(** X18: a stats frame rewrites the online count and nothing else.  For
    a whole number of users up to 2^53, the range in which the JSON number
    of the frame is exact, the text shown is the decimal numeral of the
    count followed by " user online" for a count of one and by
    " users online" for every other count, zero included; and two such
    counts are never shown alike. *)
Theorem updateOnlineCount_text (st : State) (n m : nat)
    (Hn : (N.of_nat n <= 2 ^ 53)%N) (Hm : (N.of_nat m <= 2 ^ 53)%N) :
  let shown k :=
    onlineCount_text (chatScreen (exec (updateOnlineCount (users_online k)) st)) in
  exec (updateOnlineCount (users_online n)) st
  = set_chatScreen (set_onlineCount_text (shown n) (chatScreen st)) st /\
  shown n
  = String_of_nat n ++ (if n =? 1 then lit " user online" else lit " users online") /\
  (shown n = shown m <-> n = m).
Proof.
  intros shown.
  assert (Htext : forall k, shown k
            = String_of_nat k ++ 32%N
                :: (if k =? 1 then lit "user online" else lit "users online")).
  { intros k. unfold shown. unfold updateOnlineCount, exec, on_chat, modify. simpl.
    destruct (k =? 1); reflexivity. }
  split; [reflexivity|]. split.
  { rewrite Htext. destruct (n =? 1); reflexivity. }
  split; [|now intros ->].
  rewrite !Htext. intros Heq. apply String_of_nat_inj.
  eapply digits_then_space; [apply String_of_nat_digits .. | exact Heq].
Qed.

Lemma updateOnlineCount_text_witness :
  onlineCount_text (chatScreen (exec (updateOnlineCount (users_online 1)) Ada_connected))
  = String_of_nat 1 ++ lit " user online".
Proof.
  assert (Hone : (N.of_nat 1 <= 2 ^ 53)%N) by (vm_compute; discriminate).
  assert (Htwo : (N.of_nat 2 <= 2 ^ 53)%N) by (vm_compute; discriminate).
  destruct (updateOnlineCount_text Ada_connected 1 2 Hone Htwo) as (_ & Htext & _).
  exact Htext.
Defined.

(** ** Two more invariants of the event loop *)

(** The variable [socket] is [null] until the first connection is made
    and from then on refers to the WebSocket created last. *)
Definition holds_latest (st : State) : Prop :=
  match socket st with
  | None => sockets st = []
  | Some ref => S ref = length (sockets st)
  end.

(** Exactly one of the login view and the chat view is shown. *)
Definition one_view (st : State) : Prop :=
  login_hidden (loginScreen st) = negb (chat_hidden (chatScreen st)).

Ltac latest_leaf :=
  unfold holds_latest in *; proj_simpl;
  repeat match goal with
  | H : socket ?st = _, Hl : context [socket ?st] |- _ => rewrite H in Hl
  | H : socket ?st = _ |- context [socket ?st] => rewrite H
  end;
  try match goal with
      | Hl : context [match socket ?st with _ => _ end] |- _ => destruct (socket st)
      end;
  repeat rewrite ?length_app, ?length_insert, ?length_alter; simpl;
  first [ assumption | lia | congruence
        | match goal with H : sockets _ = [] |- _ => rewrite H; reflexivity end ].

Lemma holds_latest_step e st st' :
  holds_latest st -> step e st = Some st' ->
  holds_latest st' /\
  length (sockets st) <= length (sockets st') <= S (length (sockets st)).
Proof.
  intros Hlatest Hstep. step_cases Hstep.
  all: try (wp_start; wp_run).
  all: split; latest_leaf.
Qed.

Lemma holds_latest_run events : forall st st',
  holds_latest st -> run events st = Some st' -> holds_latest st'.
Proof.
  induction events as [|e events IH]; simpl; intros st st' Hok Hrun.
  - congruence.
  - destruct (step e st) as [st1|] eqn:Hstep; [|discriminate].
    eapply IH; [|exact Hrun]. eapply holds_latest_step; eassumption.
Qed.

(** X19: in every state the script can reach, the variable [socket] is
    [null] only as long as no WebSocket has been created, and otherwise
    refers to the WebSocket created last: no handler resets it, and a
    socket that has been replaced is never the current one again.  An
    event creates at most one WebSocket and none is ever discarded. *)
Theorem socket_is_the_latest (st : State) (Hreach : reachable st) :
  match socket st with
  | None => sockets st = []
  | Some ref => S ref = length (sockets st)
  end /\
  (forall e st',
      step e st = Some st' ->
      length (sockets st) <= length (sockets st') <= S (length (sockets st))).
Proof.
  assert (Hlatest : holds_latest st).
  { destruct Hreach as (st0 & events & Hinit & Hrun).
    eapply holds_latest_run; [|exact Hrun].
    destruct Hinit as (Hs & _ & _ & _ & _ & Hss & _).
    unfold holds_latest. now rewrite Hs. }
  split; [exact Hlatest|].
  intros e st' Hstep. exact (proj2 (holds_latest_step e st st' Hlatest Hstep)).
Qed.

Lemma socket_is_the_latest_witness :
  socket Ada_switched_and_reconnected = Some 2 /\
  3 = length (sockets Ada_switched_and_reconnected).
Proof.
  assert (Hreach : reachable Ada_switched_and_reconnected)
    by (apply (reachable_run Ada_switches_and_reconnects); vm_compute; reflexivity).
  assert (Hs : socket Ada_switched_and_reconnected = Some 2) by (vm_compute; reflexivity).
  destruct (socket_is_the_latest Ada_switched_and_reconnected Hreach) as [H _].
  rewrite Hs in H. split; [exact Hs | exact H].
Defined.

Lemma one_view_step e st st' : one_view st -> step e st = Some st' -> one_view st'.
Proof.
  intros Hone Hstep. step_cases Hstep; try exact Hone.
  all: wp_start; wp_run; unfold one_view in *; proj_simpl;
    first [ exact Hone | reflexivity ].
Qed.

(** X20: every event keeps exactly one of the two views shown: starting
    from a page that shows one of the login view and the chat view and
    hides the other, whatever events follow, the chat view is shown
    exactly when the login view is hidden. *)
Theorem one_view_is_shown (events : list Event) (st st' : State)
    (Hone : login_hidden (loginScreen st) = negb (chat_hidden (chatScreen st)))
    (Hrun : run events st = Some st') :
  login_hidden (loginScreen st') = negb (chat_hidden (chatScreen st')).
Proof.
  revert st Hone Hrun.
  induction events as [|e events IH]; simpl; intros st Hone Hrun.
  - congruence.
  - destruct (step e st) as [st1|] eqn:Hstep; [|discriminate].
    eapply IH; [|exact Hrun]. exact (one_view_step e st st1 Hone Hstep).
Qed.

Lemma one_view_is_shown_witness :
  login_hidden (loginScreen Ada_connected) = true /\
  login_hidden (loginScreen Ada_connected)
  = negb (chat_hidden (chatScreen Ada_connected)).
Proof.
  split; [vm_compute; reflexivity|].
  apply (one_view_is_shown Ada_connects fresh_page); [reflexivity|].
  vm_compute. reflexivity.
Defined.

(** ** White space in the messages sent *)

Lemma no_space_run_app a : forall b,
  no_space_run (a ++ b) = true -> no_space_run a = true /\ no_space_run b = true.
Proof.
  induction a as [|x [|y a] IH]; intros b H.
  - split; [reflexivity | exact H].
  - split; [reflexivity | exact (no_space_run_tail x b H)].
  - change (negb (isWhiteSpace x && isWhiteSpace y)
            && no_space_run ((y :: a) ++ b) = true) in H.
    apply andb_true_iff in H as [Hxy H]. destruct (IH b H) as [Ha Hb].
    split; [|exact Hb].
    change (negb (isWhiteSpace x && isWhiteSpace y) && no_space_run (y :: a) = true).
    now rewrite Hxy, Ha.
Qed.

Lemma no_space_run_trim s : no_space_run s = true -> no_space_run (trim s) = true.
Proof.
  intros H. destruct (trim_split s) as (l & r & Hs & _).
  rewrite Hs in H. apply no_space_run_app in H as [_ H].
  now apply no_space_run_app in H as [H _].
Qed.

(** The message field holds no two neighbouring white-space code units. *)
Definition field_collapsed (st : State) : Prop :=
  no_space_run (messageInput_value (chatScreen st)) = true.

(** Nor does the message of any frame sent so far. *)
Definition messages_collapsed (st : State) : Prop :=
  forall ref e m,
    e ∈ sent_on ref st -> field "message" e = Some m -> no_space_run m = true.

Lemma field_collapsed_step e st st' :
  field_collapsed st -> step e st = Some st' -> field_collapsed st'.
Proof.
  intros Hfield Hstep. unfold field_collapsed in *.
  step_cases Hstep; try exact Hfield.
  all: wp_start; wp_run; proj_simpl;
    first [ exact Hfield | reflexivity | apply collapseFrom_no_space_run; reflexivity ].
Qed.

Lemma messages_collapsed_step e st st' :
  field_collapsed st -> messages_collapsed st -> step e st = Some st' ->
  messages_collapsed st'.
Proof.
  intros Hfield Hlogs Hstep ref e' m He Hm.
  destruct (step_transmits e st st' Hstep ref) as (new & Hsent & Hnew).
  rewrite Hsent in He. apply elem_of_app in He as [He | He]; [eauto|].
  rewrite Forall_forall in Hnew.
  destruct (Hnew e' He) as [-> | [-> | [-> | [-> _]]]]; try discriminate Hm.
  injection Hm as <-. apply no_space_run_trim. exact Hfield.
Qed.

Lemma collapsed_run events : forall st st',
  field_collapsed st -> messages_collapsed st -> run events st = Some st' ->
  field_collapsed st' /\ messages_collapsed st'.
Proof.
  induction events as [|e events IH]; simpl; intros st st' Hfield Hlogs Hrun.
  - injection Hrun as <-. split; assumption.
  - destruct (step e st) as [st1|] eqn:Hstep; [|discriminate].
    eapply IH; [| |exact Hrun];
      eauto using field_collapsed_step, messages_collapsed_step.
Qed.

(** X21: the purpose of the listener of line 453, end to end.  Starting
    from a page whose message field holds no two neighbouring white-space
    code units and on which no socket exists yet, whatever events follow,
    the field never holds such a pair and neither does the message of any
    chat envelope sent on any socket. *)
Theorem chat_messages_have_no_space_runs (events : list Event) (st0 st : State)
    (Hfield : no_space_run (messageInput_value (chatScreen st0)) = true)
    (Hfresh : sockets st0 = [])
    (Hrun : run events st0 = Some st) :
  no_space_run (messageInput_value (chatScreen st)) = true /\
  (forall ref e m,
      e ∈ sent_on ref st -> field "message" e = Some m -> no_space_run m = true).
Proof.
  apply (collapsed_run events st0 st Hfield); [|exact Hrun].
  intros ref e m He. unfold sent_on in He. rewrite Hfresh in He.
  apply elem_of_nil in He. contradiction.
Qed.

(** Ada sends a message typed with a run of spaces in it. *)
Definition Ada_sends_spaced_out : list Event :=
  Ada_connects ++ [messageInput_input (lit "hi   there"); sendBtn_click noon].

Definition Ada_sent_spaced_out : State :=
  default fresh_page (run Ada_sends_spaced_out fresh_page).

Lemma chat_messages_have_no_space_runs_witness :
  sent_on 0 Ada_sent_spaced_out
  = [join_envelope (lit "Ada") (lit "general"); typing_envelope;
     chat_envelope (lit "hi there"); stop_typing_envelope] /\
  (forall ref e m,
      e ∈ sent_on ref Ada_sent_spaced_out -> field "message" e = Some m ->
      no_space_run m = true).
Proof.
  split; [vm_compute; reflexivity|].
  apply (chat_messages_have_no_space_runs Ada_sends_spaced_out fresh_page);
    [reflexivity | reflexivity | vm_compute; reflexivity].
Defined.

(** ** The typing flag and its timer *)

(** While the client is marked typing, the timer [typingTimeout] holds is
    a pending stop-typing timer due within the second. *)
Definition typing_ends (st : State) : Prop :=
  isTyping st = true ->
  exists handle t,
    typingTimeout st = Some handle /\ timers st !! handle = Some t /\
    callback t = StopTyping /\ pending t = true /\ (due t <= clock st + 1000)%N.

Lemma typing_ends_keep st st' :
  typing_ends st ->
  isTyping st' = isTyping st -> typingTimeout st' = typingTimeout st ->
  (clock st <= clock st')%N ->
  (forall handle t,
      timers st !! handle = Some t -> callback t = StopTyping -> pending t = true ->
      timers st' !! handle = Some t) ->
  typing_ends st'.
Proof.
  intros Hends Hflag Hheld Hclock Hkeep Htyping. rewrite Hflag in Htyping.
  destruct (Hends Htyping) as (handle & t & Hh & Hl & Hcb & Hp & Hdue).
  exists handle, t. rewrite Hheld. repeat split; auto. lia.
Qed.

Lemma lookup_cancel_other (ts : list Timer) fired handle t t' :
  ts !! fired = Some t' -> callback t' <> StopTyping ->
  ts !! handle = Some t -> callback t = StopTyping ->
  alter cancel fired ts !! handle = Some t.
Proof.
  intros Hf Hcb' Hl Hcb. rewrite list_lookup_alter_ne; [exact Hl|].
  intros ->. congruence.
Qed.

Ltac typing_leaf :=
  first
    [ (* the flag is cleared *)
      solve [intros Htyping; proj_simpl; congruence]
    | (* a new stop-typing timer is armed *)
      solve [intros _; proj_simpl; eexists _, _;
             split; [reflexivity|];
             split; [apply list_lookup_middle; rewrite ?length_alter; reflexivity|];
             repeat split; simpl; lia]
    | (* flag, handle and stop-typing timers are kept *)
      match goal with
      | Hends : typing_ends ?st |- _ =>
          apply (typing_ends_keep st); proj_simpl;
          [ exact Hends | reflexivity | reflexivity | lia
          | let Hl := fresh in let Hcb := fresh in
            intros ? ? Hl Hcb _;
            first [ exact Hl
                  | apply lookup_app_l_Some; exact Hl
                  | eapply lookup_cancel_other; [eassumption | congruence | exact Hl | exact Hcb]
                  | apply lookup_app_l_Some; eapply lookup_cancel_other;
                    [eassumption | congruence | exact Hl | exact Hcb] ] ]
      end ].

Lemma typing_ends_step e st st' : typing_ends st -> step e st = Some st' -> typing_ends st'.
Proof.
  intros Hends Hstep. step_cases Hstep.
  all: try (wp_start; wp_run).
  all: norm_hyps; try congruence.
  all: solve [typing_leaf].
Qed.

Lemma typing_ends_run events : forall st st',
  typing_ends st -> run events st = Some st' -> typing_ends st'.
Proof.
  induction events as [|e events IH]; simpl; intros st st' Hends Hrun.
  - injection Hrun as <-. exact Hends.
  - destruct (step e st) as [st1|] eqn:Hstep; [|discriminate].
    eauto using typing_ends_step.
Qed.

(** X22: the typing mark cannot get stuck.  In every state the script
    can reach in which the client is marked typing, the timer that
    [typingTimeout] holds is a stop-typing timer, still pending and due no
    later than a second from now; whatever the user does in between
    (sending, switching rooms, leaving, losing the connection), either the
    mark is cleared or that timer remains to clear it. *)
Theorem typing_flag_has_a_pending_timer (st : State) (Hreach : reachable st)
    (Htyping : isTyping st = true) :
  exists handle t,
    typingTimeout st = Some handle /\ timers st !! handle = Some t /\
    callback t = StopTyping /\ pending t = true /\ (due t <= clock st + 1000)%N.
Proof.
  destruct Hreach as (st0 & events & Hinit & Hrun).
  apply (typing_ends_run events st0 st); [|exact Hrun|exact Htyping].
  destruct Hinit as (_ & _ & _ & Hflag & _). intros H. congruence.
Qed.

Lemma typing_flag_has_a_pending_timer_witness :
  isTyping Ada_wrote_hi = true /\
  exists handle t,
    typingTimeout Ada_wrote_hi = Some handle /\
    timers Ada_wrote_hi !! handle = Some t /\
    callback t = StopTyping /\ pending t = true /\
    (due t <= clock Ada_wrote_hi + 1000)%N.
Proof.
  assert (Hreach : reachable Ada_wrote_hi)
    by (apply (reachable_run Ada_writes_hi); vm_compute; reflexivity).
  assert (Htyping : isTyping Ada_wrote_hi = true) by (vm_compute; reflexivity).
  split; [exact Htyping|].
  exact (typing_flag_has_a_pending_timer Ada_wrote_hi Hreach Htyping).
Defined.

(** ** What a room switch leaves on the screen *)

(** X23: a switch to another, configured room clears the message list
    and sets the title to the new room's display name, and changes
    nothing else of the chat view: the online count and the typing
    indicator of the room just left stay on the screen until the next
    stats or typing frame arrives, and the text in the message field is
    kept.  The username, the typing flag and the timers are as before: no
    stop-typing timer is cancelled by the switch. *)
Theorem switchRoom_keeps_the_rest_of_the_view (st : State) (newRoom : jsstring)
    (config : RoomInfo)
    (Hnew : newRoom <> currentRoom st) (Hconfig : roomConfig_get newRoom = Some config) :
  let st' := exec (switchRoom newRoom) st in
  chatScreen st'
  = set_currentRoomEl_text (name config) (set_messagesList [] (chatScreen st)) /\
  (onlineCount_text (chatScreen st') = onlineCount_text (chatScreen st) /\
   typingIndicator_hidden (chatScreen st') = typingIndicator_hidden (chatScreen st) /\
   typingText_text (chatScreen st') = typingText_text (chatScreen st) /\
   messageInput_value (chatScreen st') = messageInput_value (chatScreen st)) /\
  loginScreen st' = loginScreen st /\
  currentUsername st' = currentUsername st /\
  isTyping st' = isTyping st /\
  typingTimeout st' = typingTimeout st /\
  timers st' = timers st.
Proof.
  cbv zeta. apply roomConfig_name_own in Hconfig.
  assert (Hview : chatScreen (exec (switchRoom newRoom) st)
                  = set_currentRoomEl_text (name config)
                      (set_messagesList [] (chatScreen st))).
  { wp_start. wp_run; try reflexivity.
    all: try (apply bool_decide_eq_true in Heqb; contradiction).
    all: congruence. }
  split; [exact Hview|]. rewrite Hview.
  split; [repeat split; reflexivity|].
  repeat split; wp_start; wp_run; try reflexivity.
  all: try (apply bool_decide_eq_true in Heqb; contradiction).
  all: congruence.
Qed.

Lemma switchRoom_keeps_the_rest_of_the_view_witness :
  messageInput_value (chatScreen (exec (switchRoom (lit "tech")) Ada_wrote_hi)) = lit "hi" /\
  isTyping (exec (switchRoom (lit "tech")) Ada_wrote_hi) = true /\
  timers (exec (switchRoom (lit "tech")) Ada_wrote_hi) = timers Ada_wrote_hi.
Proof.
  assert (Hnew : lit "tech" <> currentRoom Ada_wrote_hi) by (vm_compute; discriminate).
  assert (Hfield : messageInput_value (chatScreen Ada_wrote_hi) = lit "hi")
    by (vm_compute; reflexivity).
  assert (Hflag : isTyping Ada_wrote_hi = true) by (vm_compute; reflexivity).
  destruct (switchRoom_keeps_the_rest_of_the_view Ada_wrote_hi (lit "tech")
              {| name := lit "Tech Talk"; emoji := [240; 376; 8217; 187]%N |}
              Hnew eq_refl)
    as (_ & (_ & _ & _ & Hkept) & _ & _ & Htyping & _ & Htimers).
  rewrite Hfield in Hkept. rewrite Hflag in Htyping.
  split; [exact Hkept|]. split; [exact Htyping | exact Htimers].
Defined.

(** ** The first frame of every socket *)










